(** * node-llm-server: the response normalizer and the error classification

    A shallow embedding of [server.js]: the two-stage normalizer
    ([formatForMobile], [parseTextResponse]), the classification of upstream
    failures in [callClaude], and the [/api/query] handler.

    The program is JavaScript, so the embedding starts with the part of the
    language runtime the program relies on (module [JS]): strings as
    sequences of UTF-16 code units, dynamically typed values, truthiness,
    property reads, [String.prototype] methods, [JSON.parse] and [parseInt]. *)

From Stdlib Require Import List ZArith NArith String Ascii Bool Lia QArith.
Import ListNotations.

Set Implicit Arguments.
Set Warnings "-register-all".  (* JSValue nests lists and pairs *)

(** ** Exceptions

    A computation that can throw is a [result]: [Ok] carries the value,
    [Throw] the thrown value. *)

Inductive result (E A : Type) : Type :=
| Ok (a : A)
| Throw (e : E).

Arguments Ok {E A} a.
Arguments Throw {E A} e.

Definition bind {E A B} (c : result E A) (k : A -> result E B) : result E B :=
  match c with
  | Ok a => k a
  | Throw e => Throw e
  end.

(** [try { body } catch (e) { handler }] where the handler may throw too. *)
Definition try_catch {E E' A} (body : result E A) (handler : E -> result E' A)
  : result E' A :=
  match body with
  | Ok a => Ok a
  | Throw e => handler e
  end.

(** The same at the end of a function whose handler returns a value: the
    function returns on every path. *)
Definition try_return {E A} (body : result E A) (handler : E -> A) : A :=
  match body with
  | Ok a => a
  | Throw e => handler e
  end.

Declare Scope js_scope.
Delimit Scope js_scope with js.
Notation "x <- c ;; k" := (bind c (fun x => k))
  (at level 61, c at next level, right associativity) : js_scope.

(** * The JavaScript runtime, as far as the server uses it *)

Module JS.

(** ** Strings

    A JavaScript string is a sequence of 16-bit code units; [length],
    [substring], [startsWith] and the regular expressions of the program all
    count code units.  The bullet character U+2022 is the single unit 8226. *)

Local Open Scope N_scope.

Definition jsstring := list N.

Definition js (s : string) : jsstring :=
  map N_of_ascii (list_ascii_of_string s).

(** The same with every apostrophe read as a quotation mark, to write JSON
    texts. *)
Definition jsq (s : string) : jsstring :=
  map (fun c => if N.eqb c 39 then 34%N else c) (js s).

Definition LF : N := 10.
Definition BULLET : N := 8226.   (* U+2022 *)
Definition HYPHEN : N := 45.     (* - *)
Definition STAR : N := 42.       (* * *)

(** [a === b] on strings *)
Fixpoint jsstring_eqb (a b : jsstring) : bool :=
  match a, b with
  | [], [] => true
  | x :: a', y :: b' => (x =? y) && jsstring_eqb a' b'
  | _, _ => false
  end.

(** WhiteSpace and LineTerminator of ECMAScript: what [trim] removes and what
    [\s] matches. *)
Definition is_space (c : N) : bool :=
  ((9 <=? c) && (c <=? 13)) || (c =? 32) || (c =? 160) || (c =? 5760)
  || ((8192 <=? c) && (c <=? 8202)) || (c =? 8232) || (c =? 8233)
  || (c =? 8239) || (c =? 8287) || (c =? 12288) || (c =? 65279).

Fixpoint trimStart (s : jsstring) : jsstring :=
  match s with
  | c :: rest => if is_space c then trimStart rest else s
  | [] => []
  end.

Definition trimEnd (s : jsstring) : jsstring := rev (trimStart (rev s)).

Definition trim (s : jsstring) : jsstring := trimEnd (trimStart s).

(** [s.split(sep)] for a separator of one code unit: the pieces between the
    separators, one empty piece for the empty string. *)
Fixpoint split (sep : N) (s : jsstring) : list jsstring :=
  match s with
  | [] => [[]]
  | c :: rest =>
      if c =? sep then [] :: split sep rest
      else match split sep rest with
           | piece :: pieces => (c :: piece) :: pieces
           | [] => [[c]]
           end
  end.

(** [s.startsWith(c)] for a one-unit search string. *)
Definition startsWith (s : jsstring) (c : N) : bool :=
  match s with
  | d :: _ => d =? c
  | [] => false
  end.

(** [s.substring(0, n)] *)
Definition substring0 (n : nat) (s : jsstring) : jsstring := firstn n s.

(** ** Numbers

    A number is a binary64 value: a finite value, an infinity or [NaN].  A
    finite value is named by a decimal: [Dec m e] is the binary64 value
    nearest to [m * 10^e], the one with the even significand of two that
    are as near (the Number value for [m * 10^e] of ECMAScript); that value
    is 0 for a decimal below the range, and a decimal beyond the range has
    the value of [Infinity].  The runtime produces every finite value under
    one name, [Number_value]: the shortest decimal that has this value,
    which is the decimal [Number::toString] prints, written with the
    exponent 0 when it is an integer.  So 0.8 is [Dec 8 (-1)], 60 is
    [Dec 60 0], and the literals 1e-400 and 0.10 are read as [Dec 0 0] and
    [Dec 1 (-1)].

    The two zeros are one value here, [Dec 0 0]: the program has no
    operation that tells them apart ([-0 || d] is [d], [String(-0)] is "0",
    and [JSON.stringify] writes 0 for both). *)

Inductive number : Type :=
| Dec (m e : Z)
| Infinity (negative : bool)
| NaN.

(** The integer nearest to [n / d], the even one of two that are as near,
    for [0 <= n] and [0 < d]. *)
Definition round_half_even (n d : Z) : Z :=
  (let q := n / d in
   let r := n mod d in
   if 2 * r <? d then q
   else if d <? 2 * r then q + 1
   else if Z.even q then q else q + 1)%Z.

(** [floor (log2 (n / d))] for positive [n] and [d]. *)
Definition floor_log2 (n d : Z) : Z :=
  (let l := Z.log2 n - Z.log2 d in
   if 0 <=? l then (if d * 2 ^ l <=? n then l else l - 1)
   else (if d <=? n * 2 ^ (- l) then l else l - 1))%Z.

(** The positive real [n / d] rounded to 53 significant bits, and to a
    multiple of [2^-1074] below [2^-1022]: the nearest [q * 2^k] with
    [q < 2^53] and [-1074 <= k], given as [(q, k)] with [2^52 <= q] unless
    [k = -1074]. *)
Definition round_binary64 (n d : Z) : Z * Z :=
  (let k := Z.max (floor_log2 n d - 52) (-1074) in
   let q := if 0 <=? k then round_half_even n (d * 2 ^ k)
            else round_half_even (n * 2 ^ (- k)) d in
   if q =? 2 ^ 53 then (2 ^ 52, k + 1) else (q, k))%Z.

(** The magnitude of the binary64 value nearest to [m * 10^e], as
    [q * 2^k]; [None] beyond the range, where the value is an infinity
    (the largest finite value has [k = 971]).  The two tests before the
    division only save it: [10^400] is above [2^1024], and a decimal below
    [10^-330] is below [2^-1075] and rounds to 0 ([Z.abs m] is below
    [10^(Z.log2 (Z.abs m) / 3 + 1)]). *)
Definition binary64 (m e : Z) : option (Z * Z) :=
  (if m =? 0 then Some (0, -1074)
   else if 400 <? e then None
   else if e + Z.log2 (Z.abs m) / 3 + 1 <? -330 then Some (0, -1074)
   else
     let '(q, k) := if 0 <=? e then round_binary64 (Z.abs m * 10 ^ e) 1
                    else round_binary64 (Z.abs m) (10 ^ (- e)) in
     if 971 <? k then None else Some (q, k))%Z.

(** [10^p <= n / d] *)
Definition le_pow10 (p n d : Z) : bool :=
  (if 0 <=? p then d * 10 ^ p <=? n else d <=? n * 10 ^ (- p))%Z.

(** [floor (log10 (n / d))] for positive [n] and [d]: the estimate from the
    binary logarithm is at most one too large and two too small. *)
Definition floor_log10 (n d : Z) : Z :=
  (let est := floor_log2 n d * 30103 / 100000 in
   if le_pow10 (est + 2) n d then est + 2
   else if le_pow10 (est + 1) n d then est + 1
   else if le_pow10 est n d then est
   else est - 1)%Z.

(** Does the decimal [s * 10^x] have the value [q * 2^k]? *)
Definition names (s x q k : Z) : bool :=
  match binary64 s x with
  | Some (q', k') => ((q' =? q) && (k' =? k))%Z
  | None => false
  end.

(** The shortest decimal [s * 10^x] that has the value [v = q * 2^k = n / d],
    where [10^p <= v < 10^(p+1)]: with 1, 2, ... digits, the decimal just
    below [v] and the one just above are tried, and of two that have the
    value [v] the nearer one is taken.  17 digits always suffice; after
    them the decimal that is [v] itself would stand. *)
Fixpoint shortest (fuel : nat) (digits q k n d p : Z) : Z * Z :=
  let x := (p + 1 - digits)%Z in
  let lo := (if 0 <=? x then n / (d * 10 ^ x) else n * 10 ^ (- x) / d)%Z in
  let nearer_lo :=
    (if 0 <=? x then 2 * n <=? (2 * lo + 1) * 10 ^ x * d
     else 2 * n * 10 ^ (- x) <=? (2 * lo + 1) * d)%Z in
  match fuel with
  | O => if (0 <=? k)%Z then ((q * 2 ^ k)%Z, 0%Z) else ((q * 5 ^ (- k))%Z, k)
  | S fuel' =>
      match names lo x q k, names (lo + 1) x q k with
      | true, true => if nearer_lo then (lo, x) else ((lo + 1)%Z, x)
      | true, false => (lo, x)
      | false, true => ((lo + 1)%Z, x)
      | false, false => shortest fuel' (digits + 1)%Z q k n d p
      end
  end.

(** [s * 10^x] without the zeros that end [s]. *)
Fixpoint strip_zeros (fuel : nat) (s x : Z) : Z * Z :=
  match fuel with
  | O => (s, x)
  | S fuel' =>
      if ((s mod 10 =? 0) && negb (s =? 0))%Z
      then strip_zeros fuel' (s / 10)%Z (x + 1)%Z
      else (s, x)
  end.

(** The Number value for [m * 10^e], under the name the runtime gives it. *)
Definition Number_value (m e : Z) : number :=
  match binary64 m e with
  | None => Infinity (m <? 0)%Z
  | Some (q, k) =>
      if (q =? 0)%Z then Dec 0 0
      else
        let '(n, d) := if (0 <=? k)%Z then (q * 2 ^ k, 1)%Z else (q, 2 ^ (- k))%Z in
        let '(s, x) := shortest 17 1 q k n d (floor_log10 n d) in
        let '(s, x) := strip_zeros 20 s x in
        let s := if (m <? 0)%Z then (- s)%Z else s in
        if (0 <=? x)%Z then Dec (s * 10 ^ x) 0 else Dec s x
  end.

(** A number under the name the runtime gives it. *)
Definition canonical (x : number) : number :=
  match x with
  | Dec m e => Number_value m e
  | _ => x
  end.

(** Is the value of [m * 10^e] zero? *)
Definition is_zero (m e : Z) : bool :=
  match binary64 m e with
  | Some (q, _) => (q =? 0)%Z
  | None => false
  end.

(** A finite number as a rational: the shortest decimal that has its value.
    It is below, equal to or above 0 and 1 as the value is, 0 and 1 being
    their own shortest decimals and rounding being monotone.  An infinity
    and [NaN] have none. *)
Definition num_value (n : number) : option Q :=
  match canonical n with
  | Dec m e => Some (inject_Z m * Qpower (10 # 1) e)%Q
  | Infinity _ | NaN => None
  end.

(** ** Values *)

Inductive JSValue : Type :=
| JUndefined
| JNull
| JBool (b : bool)
| JNum (n : number)
| JStr (s : jsstring)
| JArr (elems : list JSValue)
| JObj (props : list (jsstring * JSValue)).

(** [ToBoolean]: what [!v], [v || d] and [if (v)] test. *)
Definition ToBoolean (v : JSValue) : bool :=
  match v with
  | JUndefined | JNull => false
  | JBool b => b
  | JNum n => match n with
              | Dec m e => negb (is_zero m e)
              | Infinity _ => true
              | NaN => false
              end
  | JStr s => match s with [] => false | _ :: _ => true end
  | JArr _ | JObj _ => true
  end.

(** [a || b] *)
Definition or_else (a b : JSValue) : JSValue :=
  if ToBoolean a then a else b.

(** The errors the runtime itself raises. *)
Inductive JSError : Type :=
| TypeError
| SyntaxError.

(** Own properties of an object, in the order in which the runtime lists
    them: the keys that are array indices first, in ascending order, then
    the other keys in the order of their creation.  [set_prop] is
    CreateDataProperty: a key already present keeps its place and takes the
    new value. *)
Fixpoint lookup (k : jsstring) (props : list (jsstring * JSValue)) : option JSValue :=
  match props with
  | [] => None
  | (k', v) :: rest => if jsstring_eqb k k' then Some v else lookup k rest
  end.

(** An array index is the decimal, without leading zero, of an integer below
    [2^32 - 1]. *)
Definition array_index (k : jsstring) : option Z :=
  match k with
  | [] => None
  | c :: rest =>
      if forallb (fun d => (48 <=? d) && (d <=? 57)) k
         && (negb (c =? 48) || match rest with [] => true | _ :: _ => false end)
      then
        let i := fold_left (fun a d => a * 10 + (Z.of_N d - 48))%Z k 0%Z in
        if (i <? 2 ^ 32 - 1)%Z then Some i else None
      else None
  end.

(** Is a new key [k] listed before the key [k']? *)
Definition key_before (k k' : jsstring) : bool :=
  match array_index k, array_index k' with
  | Some i, Some j => (i <? j)%Z
  | Some _, None => true
  | None, _ => false
  end.

Fixpoint insert_prop (k : jsstring) (v : JSValue) (props : list (jsstring * JSValue))
  : list (jsstring * JSValue) :=
  match props with
  | [] => [(k, v)]
  | (k', v') :: rest =>
      if key_before k k' then (k, v) :: props else (k', v') :: insert_prop k v rest
  end.

Fixpoint replace_prop (k : jsstring) (v : JSValue) (props : list (jsstring * JSValue))
  : list (jsstring * JSValue) :=
  match props with
  | [] => []
  | (k', v') :: rest =>
      if jsstring_eqb k k' then (k, v) :: rest else (k', v') :: replace_prop k v rest
  end.

Definition set_prop (k : jsstring) (v : JSValue) (props : list (jsstring * JSValue))
  : list (jsstring * JSValue) :=
  match lookup k props with
  | Some _ => replace_prop k v props
  | None => insert_prop k v props
  end.

(** [v.name] for a property name that no built-in prototype defines
    ([content], [text], [summary_points], [detailed_flow], [code_snippets],
    [confidence], [prompt], ...): a TypeError on [undefined] and [null],
    the own property of an object, [undefined] on everything else. *)
Definition get (v : JSValue) (name : jsstring) : result JSError JSValue :=
  match v with
  | JUndefined | JNull => Throw TypeError
  | JObj props => Ok (match lookup name props with
                      | Some x => x
                      | None => JUndefined
                      end)
  | _ => Ok JUndefined
  end.

(** The decimal digits of a natural number, as code units. *)
Fixpoint uint_units (d : Decimal.uint) : jsstring :=
  match d with
  | Decimal.Nil => []
  | Decimal.D0 r => 48 :: uint_units r
  | Decimal.D1 r => 49 :: uint_units r
  | Decimal.D2 r => 50 :: uint_units r
  | Decimal.D3 r => 51 :: uint_units r
  | Decimal.D4 r => 52 :: uint_units r
  | Decimal.D5 r => 53 :: uint_units r
  | Decimal.D6 r => 54 :: uint_units r
  | Decimal.D7 r => 55 :: uint_units r
  | Decimal.D8 r => 56 :: uint_units r
  | Decimal.D9 r => 57 :: uint_units r
  end.

Definition nat_digits (n : N) : jsstring := uint_units (N.to_uint n).

(** [v[0]]: the first element of an array, the first unit of a string,
    the property named "0" of an object. *)
Definition get0 (v : JSValue) : result JSError JSValue :=
  match v with
  | JUndefined | JNull => Throw TypeError
  | JArr elems => Ok (match elems with x :: _ => x | [] => JUndefined end)
  | JStr s => Ok (match s with c :: _ => JStr [c] | [] => JUndefined end)
  | JObj props => Ok (match lookup (js "0") props with
                      | Some x => x
                      | None => JUndefined
                      end)
  | _ => Ok JUndefined
  end.

(** ** Conversion to strings *)

Fixpoint dropWhile {A} (f : A -> bool) (l : list A) : list A :=
  match l with
  | x :: rest => if f x then dropWhile f rest else l
  | [] => []
  end.

Definition Z_digits (z : Z) : jsstring := nat_digits (Z.to_N (Z.abs z)).

(** [Number::toString]: with [s] the [k] significant digits of the shortest
    decimal that has the value, and [n] the position of the decimal point,
    plain digits for [k <= n <= 21], a point inside for [0 < n <= 21],
    leading zeros for [-6 < n <= 0], and the exponent form otherwise. *)
Definition Number_toString (x : number) : jsstring :=
  match canonical x with
  | NaN => js "NaN"
  | Infinity negative => if negative then js "-Infinity" else js "Infinity"
  | Dec m e =>
      if (m =? 0)%Z then js "0"
      else
        let all := Z_digits m in
        let s := rev (dropWhile (N.eqb 48) (rev all)) in
        let k := Z.of_nat (List.length s) in
        let n := (Z.of_nat (List.length all) + e)%Z in
        let sign := if (m <? 0)%Z then js "-" else [] in
        let zeros (z : Z) := repeat 48 (Z.to_nat z) in
        sign ++
        (if ((k <=? n) && (n <=? 21))%Z then s ++ zeros (n - k)%Z
         else if ((0 <? n) && (n <=? 21))%Z then
           firstn (Z.to_nat n) s ++ js "." ++ skipn (Z.to_nat n) s
         else if ((-6 <? n) && (n <=? 0))%Z then
           js "0." ++ zeros (- n)%Z ++ s
         else
           let ex := (if (0 <=? n - 1)%Z then js "e+" else js "e-") ++ Z_digits (n - 1) in
           match s with
           | [d] => d :: ex
           | d :: more => d :: js "." ++ more ++ ex
           | [] => []
           end)
  end.

(** [ToString] on the values a JSON document can hold.  An array is its
    elements joined by commas, [undefined] and [null] elements giving the
    empty string; an object is ["[object Object]"] unless an own property
    hides [Object.prototype.toString], which leaves no way to a primitive
    and raises a TypeError. *)
Fixpoint ToString (v : JSValue) : result JSError jsstring :=
  match v with
  | JUndefined => Ok (js "undefined")
  | JNull => Ok (js "null")
  | JBool true => Ok (js "true")
  | JBool false => Ok (js "false")
  | JNum n => Ok (Number_toString n)
  | JStr s => Ok s
  | JArr elems =>
      (fix join (l : list JSValue) : result JSError jsstring :=
         match l with
         | [] => Ok []
         | x :: rest =>
             let piece := match x with
                          | JUndefined | JNull => Ok []
                          | _ => ToString x
                          end in
             match rest with
             | [] => piece
             | _ :: _ =>
                 (p <- piece ;; r <- join rest ;; Ok (p ++ 44 :: r))%js
             end
         end) elems
  | JObj props =>
      match lookup (js "toString") props with
      | Some _ => Throw TypeError
      | None => Ok (js "[object Object]")
      end
  end.

(** ** [parseInt] without a radix

    Leading white space is skipped, a sign is read, a [0x] or [0X] prefix
    selects radix 16, and the Number value of the longest run of digits is
    the result (the integer itself up to [2^53], the nearest binary64 value
    above, [Infinity] beyond the range); no digit at all gives [NaN]. *)

Definition digit_value (radix : Z) (c : N) : option Z :=
  let d :=
    if (48 <=? c) && (c <=? 57) then Some (Z.of_N c - 48)%Z
    else if (97 <=? c) && (c <=? 102) then Some (Z.of_N c - 87)%Z
    else if (65 <=? c) && (c <=? 70) then Some (Z.of_N c - 55)%Z
    else None in
  match d with
  | Some x => if (x <? radix)%Z then Some x else None
  | None => None
  end.

Fixpoint read_digits (radix : Z) (acc : option Z) (s : jsstring) : option Z :=
  match s with
  | [] => acc
  | c :: rest =>
      match digit_value radix c with
      | Some d =>
          read_digits radix
            (Some (match acc with Some a => a * radix + d | None => d end)%Z) rest
      | None => acc
      end
  end.

Definition parseInt_string (input : jsstring) : number :=
  let s := trimStart input in
  let negative := startsWith s 45 in
  let s := if startsWith s 45 || startsWith s 43 then tl s else s in
  let '(radix, s) :=
    match s with
    | 48 :: x :: rest => if (x =? 120) || (x =? 88) then (16%Z, rest) else (10%Z, s)
    | _ => (10%Z, s)
    end in
  match read_digits radix None s with
  | Some z => Number_value (if negative then - z else z)%Z 0
  | None => NaN
  end.

Definition parseInt (v : JSValue) : result JSError number :=
  (s <- ToString v ;; Ok (parseInt_string s))%js.

(** ** [JSON.parse]

    The JSON grammar read one code unit at a time.  The reader is in one of
    the lexical states of [lexer] (between tokens, inside a string, an
    escape, a literal name or a number) and feeds each finished token to
    the structural state [pstate], which keeps the stack of the arrays and
    objects still open. *)

Inductive literal : Type := LitTrue | LitFalse | LitNull.

Definition literal_value (l : literal) : JSValue :=
  match l with
  | LitTrue => JBool true
  | LitFalse => JBool false
  | LitNull => JNull
  end.

Inductive token : Type :=
| TLBrace | TRBrace | TLBracket | TRBracket | TColon | TComma
| TStr (s : jsstring)
| TNum (n : number)
| TLit (l : literal).

(** An open container that waits for the value being read. *)
Inductive frame : Type :=
| FArr (done : list JSValue)                           (* elements so far, last first *)
| FObj (props : list (jsstring * JSValue)) (key : jsstring).

Inductive pstate : Type :=
| PValue (st : list frame)                              (* a value must start *)
| PArrStart (st : list frame)                           (* after [ *)
| PArrNext (done : list JSValue) (st : list frame)      (* after an element *)
| PObjStart (st : list frame)                           (* after { *)
| PKey (props : list (jsstring * JSValue)) (st : list frame)   (* after , in an object *)
| PColon (props : list (jsstring * JSValue)) (key : jsstring) (st : list frame)
| PObjNext (props : list (jsstring * JSValue)) (st : list frame) (* after a member *)
| PDone (v : JSValue).                                  (* the document is read *)

(** The value [v] is finished below the open containers [st]. *)
Definition complete (v : JSValue) (st : list frame) : pstate :=
  match st with
  | [] => PDone v
  | FArr done :: st' => PArrNext (v :: done) st'
  | FObj props key :: st' => PObjNext (set_prop key v props) st'
  end.

Definition start_value (st : list frame) (t : token) : option pstate :=
  match t with
  | TLBracket => Some (PArrStart st)
  | TLBrace => Some (PObjStart st)
  | TStr s => Some (complete (JStr s) st)
  | TNum n => Some (complete (JNum n) st)
  | TLit l => Some (complete (literal_value l) st)
  | _ => None
  end.

Definition feed (p : pstate) (t : token) : option pstate :=
  match p, t with
  | PValue st, _ => start_value st t
  | PArrStart st, TRBracket => Some (complete (JArr []) st)
  | PArrStart st, _ => start_value (FArr [] :: st) t
  | PArrNext done st, TComma => Some (PValue (FArr done :: st))
  | PArrNext done st, TRBracket => Some (complete (JArr (rev done)) st)
  | PObjStart st, TRBrace => Some (complete (JObj []) st)
  | PObjStart st, TStr k => Some (PColon [] k st)
  | PKey props st, TStr k => Some (PColon props k st)
  | PColon props k st, TColon => Some (PValue (FObj props k :: st))
  | PObjNext props st, TComma => Some (PKey props st)
  | PObjNext props st, TRBrace => Some (complete (JObj props) st)
  | _, _ => None
  end.

(** Where a number literal stands: [-? int frac? exp?]. *)
Inductive nphase : Type :=
| NMinus      (* after the sign, a digit must follow *)
| NZero       (* the integer part is 0 *)
| NInt        (* inside the integer part *)
| NDot        (* after the point, a digit must follow *)
| NFrac       (* inside the fraction *)
| NE          (* after e or E *)
| NESign      (* after the sign of the exponent *)
| NExp.       (* inside the exponent *)

Record numlit : Type := mkNum {
  neg : bool;        (* a leading minus *)
  mant : Z;          (* the digits read so far, point dropped *)
  fracs : Z;         (* how many of them follow the point *)
  eneg : bool;       (* a minus in the exponent *)
  expo : Z;          (* the exponent digits *)
  phase : nphase
}.

(** The Number value of the literal. *)
Definition numlit_value (l : numlit) : number :=
  Number_value (if neg l then - mant l else mant l)
               ((if eneg l then - expo l else expo l) - fracs l).

Definition numlit_complete (l : numlit) : bool :=
  match phase l with
  | NZero | NInt | NFrac | NExp => true
  | _ => false
  end.

Definition is_digit (c : N) : bool := (48 <=? c) && (c <=? 57).
Definition is_e (c : N) : bool := (c =? 101) || (c =? 69).

(** One more unit of a number literal; [None] when [c] cannot continue it. *)
Definition numlit_step (l : numlit) (c : N) : option numlit :=
  let d := (Z.of_N c - 48)%Z in
  let with_phase ph := mkNum (neg l) (mant l) (fracs l) (eneg l) (expo l) ph in
  let int_digit := mkNum (neg l) (mant l * 10 + d) (fracs l) (eneg l) (expo l) NInt in
  let frac_digit := mkNum (neg l) (mant l * 10 + d) (fracs l + 1) (eneg l) (expo l) NFrac in
  let exp_digit := mkNum (neg l) (mant l) (fracs l) (eneg l) (expo l * 10 + d) NExp in
  match phase l with
  | NMinus => if c =? 48 then Some (with_phase NZero)
              else if is_digit c then Some int_digit else None
  | NZero => if c =? 46 then Some (with_phase NDot)
             else if is_e c then Some (with_phase NE) else None
  | NInt => if is_digit c then Some int_digit
            else if c =? 46 then Some (with_phase NDot)
            else if is_e c then Some (with_phase NE) else None
  | NDot => if is_digit c then Some frac_digit else None
  | NFrac => if is_digit c then Some frac_digit
             else if is_e c then Some (with_phase NE) else None
  | NE => if c =? 43 then Some (with_phase NESign)
          else if c =? 45
               then Some (mkNum (neg l) (mant l) (fracs l) true (expo l) NESign)
          else if is_digit c then Some exp_digit else None
  | NESign => if is_digit c then Some exp_digit else None
  | NExp => if is_digit c then Some exp_digit else None
  end.

Inductive lexer : Type :=
| LIdle                                       (* between tokens *)
| LStr (acc : jsstring)                       (* in a string; units so far, last first *)
| LEsc (acc : jsstring)                       (* after a backslash *)
| LHex (acc : jsstring) (k : nat) (u : N)     (* in \uXXXX, k digits to come *)
| LLit (more : jsstring) (l : literal)        (* in true, false or null *)
| LNum (l : numlit).

Definition emit (p : pstate) (t : token) : option (lexer * pstate) :=
  match feed p t with
  | Some p' => Some (LIdle, p')
  | None => None
  end.

(** A unit met between tokens. *)
Definition idle_step (p : pstate) (c : N) : option (lexer * pstate) :=
  if (c =? 32) || (c =? 9) || (c =? 10) || (c =? 13) then Some (LIdle, p)
  else if c =? 123 then emit p TLBrace
  else if c =? 125 then emit p TRBrace
  else if c =? 91 then emit p TLBracket
  else if c =? 93 then emit p TRBracket
  else if c =? 58 then emit p TColon
  else if c =? 44 then emit p TComma
  else if c =? 34 then Some (LStr [], p)
  else if c =? 45 then Some (LNum (mkNum true 0 0 false 0 NMinus), p)
  else if c =? 48 then Some (LNum (mkNum false 0 0 false 0 NZero), p)
  else if is_digit c then Some (LNum (mkNum false (Z.of_N c - 48) 0 false 0 NInt), p)
  else if c =? 116 then Some (LLit (js "rue") LitTrue, p)
  else if c =? 102 then Some (LLit (js "alse") LitFalse, p)
  else if c =? 110 then Some (LLit (js "ull") LitNull, p)
  else None.

Definition escape_unit (c : N) : option N :=
  if c =? 34 then Some 34            (* quotation mark *)
  else if c =? 92 then Some 92       (* backslash *)
  else if c =? 47 then Some 47       (* slash *)
  else if c =? 98 then Some 8        (* b: backspace *)
  else if c =? 102 then Some 12      (* f: form feed *)
  else if c =? 110 then Some 10      (* n: line feed *)
  else if c =? 114 then Some 13      (* r: carriage return *)
  else if c =? 116 then Some 9       (* t: tab *)
  else None.

Definition step (state : lexer * pstate) (c : N) : option (lexer * pstate) :=
  let '(lx, p) := state in
  match lx with
  | LIdle => idle_step p c
  | LStr acc =>
      if c =? 34 then emit p (TStr (rev acc))
      else if c =? 92 then Some (LEsc acc, p)
      else if c <? 32 then None
      else Some (LStr (c :: acc), p)
  | LEsc acc =>
      if c =? 117 then Some (LHex acc 4 0, p)
      else match escape_unit c with
           | Some u => Some (LStr (u :: acc), p)
           | None => None
           end
  | LHex acc k u =>
      match digit_value 16 c with
      | Some h =>
          let u' := u * 16 + Z.to_N h in
          match k with
          | 1%nat => Some (LStr (u' :: acc), p)
          | _ => Some (LHex acc (pred k) u', p)
          end
      | None => None
      end
  | LLit more l =>
      match more with
      | x :: rest =>
          if c =? x
          then match rest with
               | [] => emit p (TLit l)
               | _ :: _ => Some (LLit rest l, p)
               end
          else None
      | [] => None
      end
  | LNum l =>
      match numlit_step l c with
      | Some l' => Some (LNum l', p)
      | None =>
          if numlit_complete l
          then match feed p (TNum (numlit_value l)) with
               | Some p' => idle_step p' c
               | None => None
               end
          else None
      end
  end.

Fixpoint run (state : lexer * pstate) (s : jsstring) : option (lexer * pstate) :=
  match s with
  | [] => Some state
  | c :: rest =>
      match step state c with
      | Some state' => run state' rest
      | None => None
      end
  end.

(** At the end of the text the document must be complete. *)
Definition finish (state : lexer * pstate) : option JSValue :=
  match state with
  | (LIdle, PDone v) => Some v
  | (LNum l, p) =>
      if numlit_complete l
      then match feed p (TNum (numlit_value l)) with
           | Some (PDone v) => Some v
           | _ => None
           end
      else None
  | _ => None
  end.

(** [JSON.parse(text)] for a string: the value, or a SyntaxError. *)
Definition JSON_parse_string (text : jsstring) : result JSError JSValue :=
  match run (LIdle, PValue []) text with
  | Some state =>
      match finish state with
      | Some v => Ok v
      | None => Throw SyntaxError
      end
  | None => Throw SyntaxError
  end.

(** [JSON.parse(v)]: the argument is first converted to a string. *)
Definition JSON_parse (v : JSValue) : result JSError JSValue :=
  (text <- ToString v ;; JSON_parse_string text)%js.

End JS.

Import JS.
Local Open Scope js_scope.

(** * The response normalizer *)

(** ** [parseTextResponse] *)

(** [line.startsWith("•") || line.startsWith("-") || line.startsWith("*")] *)
Definition is_bullet_line (line : jsstring) : bool :=
  startsWith line BULLET || startsWith line HYPHEN || startsWith line STAR.

(** [line.replace] of [/^[•\-*]\s*/] by the empty string: one marker at the
    start of the line and the white space after it are removed; a line that
    does not start with a marker is left as it is. *)
Definition strip_marker (line : jsstring) : jsstring :=
  match line with
  | c :: rest =>
      if (c =? BULLET)%N || (c =? HYPHEN)%N || (c =? STAR)%N
      then trimStart rest
      else line
  | [] => []
  end.

Definition nonempty (s : jsstring) : bool :=
  match s with
  | [] => false
  | _ :: _ => true
  end.

(** [text.split("\n").filter((line) => line.trim())] *)
Definition text_lines (text : jsstring) : list jsstring :=
  filter (fun line => nonempty (trim line)) (split LF text).

(** The body of [for (const line of lines)], on the two variables
    [summary_points] and [detailed_flow]. *)
Definition scan_line (vars : list jsstring * jsstring) (line : jsstring)
  : list jsstring * jsstring :=
  let '(summary_points, detailed_flow) := vars in
  if is_bullet_line line
  then (summary_points ++ [trim (strip_marker line)], detailed_flow)
  else if (20 <? List.length line)%nat && negb (nonempty detailed_flow)
       then (summary_points, trim line)
       else (summary_points, detailed_flow).

Definition scan_lines (lines : list jsstring) : list jsstring * jsstring :=
  fold_left scan_line lines ([], []).

Definition ELLIPSIS : jsstring := js "...".

Definition confidence_default : number := Dec 8 (-1).      (* 0.8 *)

(** [parseTextResponse(text)]; a [text] that is not a string has no [split]
    to call. *)
Definition parseTextResponse (text : JSValue) : result JSError JSValue :=
  match text with
  | JStr t =>
      let '(summary_points, detailed_flow) := scan_lines (text_lines t) in
      Ok (JObj
            [ (js "summary_points",
               JArr (map JStr
                       (if (0 <? List.length summary_points)%nat
                        then firstn 5 summary_points
                        else [substring0 50 t ++ ELLIPSIS])));
              (js "detailed_flow",
               JStr (if nonempty detailed_flow
                     then detailed_flow
                     else substring0 200 t ++ ELLIPSIS));
              (js "confidence", JNum confidence_default) ])
  | _ => Throw TypeError
  end.

(** ** [formatForMobile] *)

(** The record sent to the client.  [code_snippets] is [None] where the
    object literal has no such key (the fallback), and [Some v] where it has
    one, also when [v] is [undefined]. *)
Record MobileSummary : Type := mkSummary {
  summary_points : JSValue;
  detailed_flow : JSValue;
  code_snippets : option JSValue;
  confidence : JSValue;
  mobile_optimized : bool
}.

(** [claudeResponse.content[0].text] *)
Definition extract_text (claudeResponse : JSValue) : result JSError JSValue :=
  blocks <- get claudeResponse (js "content") ;;
  first <- get0 blocks ;;
  get first (js "text").

(** [content.substring(0, 200) + "..."]; only a string has [substring]. *)
Definition truncated (content : JSValue) : result JSError JSValue :=
  match content with
  | JStr c => Ok (JStr (substring0 200 c ++ ELLIPSIS))
  | _ => Throw TypeError
  end.

(** The inner [try]: JSON first, the text heuristic when that throws. *)
Definition parse_content (content : JSValue) : result JSError JSValue :=
  try_catch (JSON_parse content) (fun parseError => parseTextResponse content).

(** The object literal returned at the end of the outer [try]. *)
Definition merge (parsedContent content : JSValue) : result JSError MobileSummary :=
  sp <- get parsedContent (js "summary_points") ;;
  df <- get parsedContent (js "detailed_flow") ;;
  df' <- (if ToBoolean df then Ok df else truncated content) ;;
  cs <- get parsedContent (js "code_snippets") ;;
  cf <- get parsedContent (js "confidence") ;;
  Ok {| summary_points := or_else sp (JArr [JStr (js "Response received")]);
        detailed_flow := df';
        code_snippets := Some cs;
        confidence := or_else cf (JNum confidence_default);
        mobile_optimized := true |}.

Definition fallback : MobileSummary :=
  {| summary_points := JArr [JStr (js "Error processing response")];
     detailed_flow := JStr (js "Unable to format response properly");
     code_snippets := None;
     confidence := JNum (Dec 5 (-1));
     mobile_optimized := true |}.

Definition formatForMobile_body (claudeResponse : JSValue)
  : result JSError MobileSummary :=
  content <- extract_text claudeResponse ;;
  parsedContent <- parse_content content ;;
  merge parsedContent content.

Definition formatForMobile (claudeResponse : JSValue) : MobileSummary :=
  try_return (formatForMobile_body claudeResponse) (fun error => fallback).

(** * The upstream client and the endpoint *)

(** What the [catch] of [callClaude] reads of the value it caught: an axios
    error has a [code], a [message] and, when the upstream answered, the
    [response]; an error raised by the runtime has a [message] only. *)

Record UpstreamResponse : Type := mkResponse {
  status : Z;
  headers : list (jsstring * jsstring);      (* names in lower case *)
  data : JSValue
}.

Module Caught.
Record t : Type := mk {
  response : option UpstreamResponse;
  code : option jsstring;
  message : jsstring
}.
End Caught.

(** The object [callClaude] throws: [{ code, message, retryAfter }]. *)
Module Classified.
Record t : Type := mk {
  code : jsstring;
  message : jsstring;
  retryAfter : option number
}.
End Classified.

(** A value thrown inside the handler's [try]. *)
Inductive Thrown : Type :=
| ThrownClassified (c : Classified.t)
| ThrownRuntime (e : JSError).

(** [error.response.headers["retry-after"]] *)
Definition header (name : jsstring) (r : UpstreamResponse) : JSValue :=
  match find (fun kv => jsstring_eqb name (fst kv)) (headers r) with
  | Some (_, v) => JStr v
  | None => JUndefined
  end.

(** The [catch] block of [callClaude]: the value it throws. *)
Definition classify (error : Caught.t) : Thrown :=
  let status_is (n : Z) :=
    match Caught.response error with
    | Some r => (status r =? n)%Z
    | None => false
    end in
  if status_is 429%Z then
    match Caught.response error with
    | Some r =>
        let retryAfter := or_else (header (js "retry-after") r) (JNum (Dec 60 0)) in
        match parseInt retryAfter with
        | Ok n => ThrownClassified
                    {| Classified.code := js "RATE_LIMIT_EXCEEDED";
                       Classified.message := js "Rate limit exceeded";
                       Classified.retryAfter := Some n |}
        | Throw e => ThrownRuntime e
        end
    | None => ThrownRuntime TypeError
    end
  else if status_is 400%Z then
    ThrownClassified
      {| Classified.code := js "INVALID_REQUEST";
         Classified.message := js "Invalid request format or parameters";
         Classified.retryAfter := None |}
  else if status_is 401%Z then
    ThrownClassified
      {| Classified.code := js "AUTHENTICATION_ERROR";
         Classified.message := js "Authentication failed";
         Classified.retryAfter := None |}
  else if match Caught.code error with
          | Some c => jsstring_eqb c (js "ECONNABORTED")
          | None => false
          end then
    ThrownClassified
      {| Classified.code := js "TIMEOUT";
         Classified.message := js "Request timeout";
         Classified.retryAfter := None |}
  else
    ThrownClassified
      {| Classified.code := js "UNKNOWN_ERROR";
         Classified.message := if nonempty (Caught.message error)
                               then Caught.message error
                               else js "Unknown error occurred";
         Classified.retryAfter := None |}.

(** The request sent upstream: the body, the headers and the timeout. *)
Record MessagesRequest : Type := mkRequest {
  model : jsstring;
  max_tokens : JSValue;
  temperature : JSValue;
  top_p : JSValue;
  content : JSValue;                  (* messages[0].content, the prompt *)
  api_key : option jsstring;          (* the x-api-key header *)
  anthropic_version : jsstring;
  timeout : Z                         (* milliseconds *)
}.

Inductive AxiosOutcome : Type :=
| Resolved (response_data : JSValue)
| Rejected (error : Caught.t).

(** The sampling parameters after destructuring. *)
Record Options : Type := mkOptions {
  opt_temperature : JSValue;
  opt_max_tokens : JSValue;
  opt_top_p : JSValue
}.

(** [const { name = d } = obj]: the default stands in for [undefined] only. *)
Definition with_default (v : JSValue) (d : JSValue) : JSValue :=
  match v with
  | JUndefined => d
  | _ => v
  end.

Record HttpResponse : Type := mkHttp {
  http_status : Z;
  http_body : JSValue + MobileSummary * jsstring
    (* an error object, or the data and the timestamp of a success *)
}.

(** [res.status(s).json({ error, code })] and the same with [retryAfter]. *)
Definition error_json (s : Z) (error code : string) (retryAfter : option number)
  : HttpResponse :=
  mkHttp s
    (inl (JObj ([ (js "error", JStr (js error)); (js "code", JStr (js code)) ]
                ++ match retryAfter with
                   | Some n => [ (js "retryAfter", JNum n) ]
                   | None => []
                   end))).

(** The [code] field of an error response. *)
Definition response_code (r : HttpResponse) : option jsstring :=
  match http_body r with
  | inl (JObj props) =>
      match lookup (js "code") props with
      | Some (JStr c) => Some c
      | _ => None
      end
  | _ => None
  end.

(** [typeof v === "string"] *)
Definition is_string (v : JSValue) : bool :=
  match v with
  | JStr _ => true
  | _ => false
  end.

(** [v.length], read of a string only. *)
Definition string_length (v : JSValue) : Z :=
  match v with
  | JStr s => Z.of_nat (List.length s)
  | _ => 0
  end.

Section Endpoint.

(** The environment of the process and the network. *)
Variable CLAUDE_MODEL : option jsstring.
Variable ANTHROPIC_API_KEY : option jsstring.
Variable axios_post : MessagesRequest -> AxiosOutcome.
Variable now : jsstring.                       (* new Date().toISOString() *)

(** [callClaude(prompt, options)]: the payload or the thrown value,
    together with the requests sent. *)
Definition callClaude (prompt : JSValue) (options : Options)
  : result Thrown JSValue * list MessagesRequest :=
  let temperature := with_default (opt_temperature options) (JNum (Dec 3 (-1))) in
  let max_tokens := with_default (opt_max_tokens options) (JNum (Dec 1500 0)) in
  let top_p := with_default (opt_top_p options) (JNum (Dec 9 (-1))) in
  let claudeModel :=
    match CLAUDE_MODEL with
    | Some m => if nonempty m then m else js "claude-3-haiku-20240307"
    | None => js "claude-3-haiku-20240307"
    end in
  let request := mkRequest claudeModel max_tokens temperature top_p prompt
                           ANTHROPIC_API_KEY (js "2023-06-01") 30000 in
  (match axios_post request with
   | Resolved response_data =>
       (* the log line reads response.data.model *)
       match get response_data (js "model") with
       | Ok _ => Ok response_data
       | Throw _ =>
           (* a TypeError, caught by the catch block like any other error;
              the message is worded as V8 words it *)
           Throw (classify
                    (Caught.mk None None
                       (js "Cannot read properties of "
                        ++ match response_data with
                           | JNull => js "null"
                           | _ => js "undefined"
                           end
                        ++ js " (reading 'model')")))
       end
   | Rejected error => Throw (classify error)
   end,
   [request]).

(** The [catch] block of the handler. *)
Definition error_response (error : Thrown) : HttpResponse :=
  let code_is (c : jsstring) :=
    match error with
    | ThrownClassified e => jsstring_eqb (Classified.code e) c
    | ThrownRuntime _ => false
    end in
  if code_is (js "RATE_LIMIT_EXCEEDED") then
    error_json 429 "Rate limit exceeded. Please try again later."
      "RATE_LIMIT_EXCEEDED"
      (Some match error with
            | ThrownClassified e =>
                match Classified.retryAfter e with
                | Some n => if ToBoolean (JNum n) then n else Dec 60 0
                | None => Dec 60 0
                end
            | ThrownRuntime _ => Dec 60 0
            end)
  else if code_is (js "INVALID_REQUEST") then
    error_json 400 "Invalid request format or parameters" "INVALID_REQUEST" None
  else if code_is (js "AUTHENTICATION_ERROR") then
    error_json 401 "Authentication failed" "AUTHENTICATION_ERROR" None
  else if code_is (js "TIMEOUT") then
    error_json 504 "Request timeout" "TIMEOUT" None
  else
    error_json 500 "Internal server error" "INTERNAL_ERROR" None.

(** The handler of [POST /api/query] on the parsed request body: the
    response and the requests sent upstream.  Destructuring a body that is
    [undefined] or [null] throws before anything else happens. *)
Definition query_handler (body : JSValue)
  : result JSError (HttpResponse * list MessagesRequest) :=
  prompt <- get body (js "prompt") ;;
  t <- get body (js "temperature") ;;
  m <- get body (js "max_tokens") ;;
  p <- get body (js "top_p") ;;
  let temperature := with_default t (JNum (Dec 3 (-1))) in
  let max_tokens := with_default m (JNum (Dec 800 0)) in
  let top_p := with_default p (JNum (Dec 9 (-1))) in
  if negb (ToBoolean prompt) || negb (is_string prompt) then
    Ok (error_json 400 "Invalid or missing prompt" "INVALID_PROMPT" None, [])
  else if (10000 <? string_length prompt)%Z then
    Ok (error_json 400 "Prompt too long (max 10000 characters)"
          "PROMPT_TOO_LONG" None, [])
  else
    let '(outcome, calls) :=
      callClaude prompt (mkOptions temperature max_tokens top_p) in
    Ok (match outcome with
        | Ok response => mkHttp 200 (inr (formatForMobile response, now))
        | Throw error => error_response error
        end, calls).

End Endpoint.

(** * Vocabulary of the properties *)

(** The payload the upstream service sends for a completion whose text is
    [text]: one content block of type text. *)
Definition payload_of_text (text : jsstring) : JSValue :=
  JObj [ (js "content",
          JArr [ JObj [ (js "type", JStr (js "text")); (js "text", JStr text) ] ]) ].

(** A list of one to five elements. *)
Definition points_in_bounds (v : JSValue) : Prop :=
  exists l, v = JArr l /\ (1 <= List.length l <= 5)%nat.

(** A number between 0 and 1. *)
Definition in_unit_interval (v : JSValue) : Prop :=
  exists n q, v = JNum n /\ num_value n = Some q /\ (0 <= q)%Q /\ (q <= 1)%Q.

(** What the first content block holds for [text] when it holds no string:
    nothing, [null], a boolean or an object. *)
Definition no_text (content : JSValue) : Prop :=
  content = JUndefined \/ content = JNull
  \/ (exists b, content = JBool b) \/ (exists props, content = JObj props).

(** A value that is missing: [undefined], [null] or the empty string. *)
Definition absent_or_empty (v : JSValue) : Prop :=
  v = JUndefined \/ v = JNull \/ v = JStr [].

(** The values that [||] replaces by its right operand. *)
Inductive falsy : JSValue -> Prop :=
| falsy_undefined : falsy JUndefined
| falsy_null : falsy JNull
| falsy_false : falsy (JBool false)
| falsy_zero m e : is_zero m e = true -> falsy (JNum (Dec m e))
| falsy_NaN : falsy (JNum NaN)
| falsy_empty : falsy (JStr []).

(** The summary point of a bullet line, as the program computes it. *)
Definition point_of (line : jsstring) : jsstring := trim (strip_marker line).

(** The lines of a text that start with a bullet marker. *)
Definition bullet_lines (text : jsstring) : list jsstring :=
  filter is_bullet_line (split LF text).

(** A line that can become the detailed flow: no bullet, over 20 units. *)
Definition is_long_line (line : jsstring) : bool :=
  negb (is_bullet_line line) && (20 <? List.length line)%nat.

(** The two fields of the heuristic stage in closed form: the points of the
    first five bullet lines, or the start of the text when there is none;
    the first long line, or the start of the text when there is none. *)
Definition heuristic_points (text : jsstring) : list jsstring :=
  match map point_of (bullet_lines text) with
  | [] => [substring0 50 text ++ ELLIPSIS]
  | _ :: _ => firstn 5 (map point_of (bullet_lines text))
  end.

Definition heuristic_flow (text : jsstring) : jsstring :=
  match find is_long_line (text_lines text) with
  | Some line => trim line
  | None => substring0 200 text ++ ELLIPSIS
  end.

(** The candidate object of the heuristic stage with the given fields. *)
Definition heuristic_candidate (points : list jsstring) (flow : jsstring) : JSValue :=
  JObj [ (js "summary_points", JArr (map JStr points));
         (js "detailed_flow", JStr flow);
         (js "confidence", JNum confidence_default) ].

(** The text of the bullet example: three bullet lines around one long line. *)
Definition explanatory_line : jsstring :=
  js "Some long explanatory line here that exceeds twenty chars".

Definition bullet_example : jsstring :=
  (BULLET :: js " A") ++ LF :: (BULLET :: js " B") ++ LF ::
  explanatory_line ++ LF :: (BULLET :: js " C").

(** Two texts of 300 units without a bullet and without JSON: one single
    line of 300 letters, and fifteen lines of 19 letters, each ended by a
    line feed. *)
Definition one_line_text : jsstring := repeat 97%N 300.

Definition short_lines_text : jsstring :=
  List.concat (repeat (repeat 97%N 19 ++ [LF]) 15).

(** Seven bullet lines. *)
Definition seven_bullets : jsstring :=
  js "-1" ++ LF :: js "-2" ++ LF :: js "-3" ++ LF :: js "-4" ++ LF ::
  js "-5" ++ LF :: js "-6" ++ LF :: js "-7".

(** A JSON document of the expected shape, written out: the strings are put
    between quotation marks as they are, which is right for strings of plain
    units, those a JSON string can hold without an escape. *)
Definition plain (c : N) : Prop := (32 <= c)%N /\ c <> 34%N /\ c <> 92%N.

Definition quote (s : jsstring) : jsstring := 34%N :: s ++ [34%N].

Definition elements_text (strings : list jsstring) : jsstring :=
  match strings with
  | [] => []
  | s :: more => quote s ++ List.concat (map (fun s => 44%N :: quote s) more)
  end.

Definition summary_document (points : list jsstring) (flow : jsstring) : jsstring :=
  jsq "{'summary_points':[" ++ elements_text points
  ++ jsq "],'detailed_flow':" ++ quote flow ++ js "}".

(** The kinds of classified error, their codes, and the status the
    specification maps each kind to. *)
Inductive ErrorKind : Type :=
| INVALID_PROMPT | PROMPT_TOO_LONG | RATE_LIMIT_EXCEEDED | INVALID_REQUEST
| AUTHENTICATION_ERROR | TIMEOUT | UNKNOWN_ERROR | INTERNAL_ERROR.

Definition kind_code (k : ErrorKind) : jsstring :=
  match k with
  | INVALID_PROMPT => js "INVALID_PROMPT"
  | PROMPT_TOO_LONG => js "PROMPT_TOO_LONG"
  | RATE_LIMIT_EXCEEDED => js "RATE_LIMIT_EXCEEDED"
  | INVALID_REQUEST => js "INVALID_REQUEST"
  | AUTHENTICATION_ERROR => js "AUTHENTICATION_ERROR"
  | TIMEOUT => js "TIMEOUT"
  | UNKNOWN_ERROR => js "UNKNOWN_ERROR"
  | INTERNAL_ERROR => js "INTERNAL_ERROR"
  end.

Definition stated_status (k : ErrorKind) : Z :=
  match k with
  | INVALID_PROMPT | PROMPT_TOO_LONG | INVALID_REQUEST => 400
  | AUTHENTICATION_ERROR => 401
  | RATE_LIMIT_EXCEEDED => 429
  | TIMEOUT => 504
  | INTERNAL_ERROR | UNKNOWN_ERROR => 500
  end.

(** [error.response?.status] *)
Definition upstream_status (error : Caught.t) : option Z :=
  option_map status (Caught.response error).

(** The kinds [callClaude] throws. *)
Definition upstream_kind (k : ErrorKind) : Prop :=
  k = RATE_LIMIT_EXCEEDED \/ k = INVALID_REQUEST \/ k = AUTHENTICATION_ERROR
  \/ k = TIMEOUT \/ k = UNKNOWN_ERROR.

(** Failures of the upstream call: a 429 that names 12 seconds, a refused
    connection, and a timeout. *)
Definition rate_limited : Caught.t :=
  Caught.mk
    (Some (mkResponse 429 [ (js "content-type", js "application/json");
                            (js "retry-after", js "12") ] JNull))
    (Some (js "ERR_BAD_REQUEST"))
    (js "Request failed with status code 429").

Definition connection_refused : Caught.t :=
  Caught.mk None (Some (js "ECONNREFUSED")) (js "connect ECONNREFUSED").

Definition timed_out : Caught.t :=
  Caught.mk None (Some (js "ECONNABORTED")) (js "timeout of 30000ms exceeded").

(** A request body with the given prompt and nothing else. *)
Definition body_of_prompt (prompt : JSValue) : JSValue :=
  JObj [(js "prompt", prompt)].


(** The kind under which the handler reports an error of kind [k]. *)
Definition reported_kind (k : ErrorKind) : ErrorKind :=
  match k with
  | UNKNOWN_ERROR => INTERNAL_ERROR
  | _ => k
  end.

(** A finished document is never [undefined]: the grammar has no such
    value. *)
Definition done_defined (p : pstate) : Prop :=
  match p with
  | PDone v => v <> JUndefined
  | _ => True
  end.

(** A string of white space only. *)
Definition blank (s : jsstring) : Prop := Forall (fun c => is_space c = true) s.

(** A text of three lines: a short one, a long one between white space, and
    another long one. *)
Definition second_line_long : jsstring :=
  js "Short note" ++ LF :: js "  The deployment finished without errors.  " ++ LF
  :: js "This later line is long as well, but comes second.".

(** Two bullet lines with a hyphen and a space. *)
Definition two_hyphen_bullets : jsstring :=
  js "- first" ++ LF :: js "- second".

(** A payload as the upstream service sends it, with its other fields and a
    second content block. *)
Definition two_block_payload : JSValue :=
  JObj [ (js "id", JStr (js "msg_01"));
         (js "model", JStr (js "claude-3-haiku-20240307"));
         (js "content",
          JArr [ JObj [ (js "type", JStr (js "text")); (js "text", JStr (js "First.")) ];
                 JObj [ (js "type", JStr (js "text")); (js "text", JStr (js "Second.")) ] ]);
         (js "stop_reason", JStr (js "end_turn")) ].

(** The record made of the defaults alone, for the text [text]. *)
Definition all_defaults (text : jsstring) : MobileSummary :=
  {| summary_points := JArr [JStr (js "Response received")];
     detailed_flow := JStr (substring0 200 text ++ ELLIPSIS);
     code_snippets := Some JUndefined;
     confidence := JNum confidence_default;
     mobile_optimized := true |}.

(** A 429 whose [retry-after] header is a date, and one that names 0
    seconds. *)
Definition rate_limited_until_date : Caught.t :=
  Caught.mk
    (Some (mkResponse 429 [(js "retry-after", js "Wed, 21 Oct 2015 07:28:00 GMT")] JNull))
    (Some (js "ERR_BAD_REQUEST"))
    (js "Request failed with status code 429").

Definition rate_limited_zero : Caught.t :=
  Caught.mk (Some (mkResponse 429 [(js "retry-after", js "0")] JNull))
            (Some (js "ERR_BAD_REQUEST"))
            (js "Request failed with status code 429").

(** A 429 whose [retry-after] header is a run of 23 digits, after another
    header. *)
Definition rate_limited_long : Caught.t :=
  Caught.mk
    (Some (mkResponse 429 [ (js "content-type", js "application/json");
                            (js "retry-after", js "99999999999999999999999") ] JNull))
    (Some (js "ERR_BAD_REQUEST"))
    (js "Request failed with status code 429").

(** A refused connection whose message names an address. *)
Definition connection_refused_at : Caught.t :=
  Caught.mk None (Some (js "ECONNREFUSED")) (js "connect ECONNREFUSED 10.0.0.7:443").

(** A prompt of exactly 10,000 units. *)
Definition limit_prompt : jsstring := repeat 97%N (Z.to_nat 10000).

(** [process.env.CLAUDE_MODEL || "claude-3-haiku-20240307"] *)
Definition model_name (CLAUDE_MODEL : option jsstring) : jsstring :=
  match CLAUDE_MODEL with
  | Some m => if nonempty m then m else js "claude-3-haiku-20240307"
  | None => js "claude-3-haiku-20240307"
  end.

(** * Properties of the runtime functions *)

Lemma jsstring_eqb_refl (a : jsstring) : jsstring_eqb a a = true.
Proof.
  induction a as [|x a IH]; simpl; [reflexivity|].
  now rewrite N.eqb_refl, IH.
Qed.

Lemma jsstring_eqb_eq (a b : jsstring) : jsstring_eqb a b = true <-> a = b.
Proof.
  split; [|intros ->; apply jsstring_eqb_refl].
  revert b; induction a as [|x a IH]; intros [|y b]; simpl; try discriminate; auto.
  rewrite andb_true_iff, N.eqb_eq. intros [-> H]. f_equal. now apply IH.
Qed.

Lemma ToBoolean_false_iff (v : JSValue) : ToBoolean v = false <-> falsy v.
Proof.
  split.
  - destruct v as [| |[]|[m e|b|]|[|c s]|l|o]; cbn [ToBoolean];
      try discriminate; try (intros _; now constructor).
    intros Hz. apply negb_false_iff in Hz. now constructor.
  - intros [| | |m e Hz| |]; try reflexivity. cbn [ToBoolean]. now rewrite Hz.
Qed.

(** [a || b] is [b] exactly for a falsy [a]. *)
Lemma or_else_falsy (v d : JSValue) :
  (falsy v -> or_else v d = d) /\ (~ falsy v -> or_else v d = v).
Proof.
  unfold or_else. rewrite <- ToBoolean_false_iff.
  destruct (ToBoolean v); split; congruence.
Qed.

Lemma nonempty_rev (s : jsstring) : nonempty (rev s) = nonempty s.
Proof.
  destruct s as [|c s]; [reflexivity|]. simpl.
  destruct (rev s); reflexivity.
Qed.

Lemma trimStart_ends_nonspace (s : jsstring) (c : N) :
  is_space c = false -> nonempty (trimStart (s ++ [c])) = true.
Proof.
  intros Hc. induction s as [|d s IH]; simpl.
  - now rewrite Hc.
  - destruct (is_space d); [exact IH | reflexivity].
Qed.

(** A line that starts with something else than white space is not blank. *)
Lemma trim_nonempty (c : N) (rest : jsstring) :
  is_space c = false -> nonempty (trim (c :: rest)) = true.
Proof.
  intros Hc. unfold trim, trimEnd. simpl trimStart at 2. rewrite Hc.
  rewrite nonempty_rev. simpl rev. now apply trimStart_ends_nonspace.
Qed.

Lemma is_bullet_line_inv (line : jsstring) :
  is_bullet_line line = true ->
  exists c rest, line = c :: rest /\ (c = BULLET \/ c = HYPHEN \/ c = STAR).
Proof.
  destruct line as [|c rest]; [discriminate|].
  unfold is_bullet_line, startsWith.
  rewrite !orb_true_iff, !N.eqb_eq. intros H. exists c, rest. tauto.
Qed.

Lemma bullet_line_not_blank (line : jsstring) :
  is_bullet_line line = true -> nonempty (trim line) = true.
Proof.
  intros H. destruct (is_bullet_line_inv _ H) as (c & rest & -> & Hc).
  apply trim_nonempty. destruct Hc as [-> | [-> | ->]]; reflexivity.
Qed.

(** On a bullet line the regular expression always matches. *)
Lemma strip_marker_bullet (c : N) (rest : jsstring) :
  is_bullet_line (c :: rest) = true -> strip_marker (c :: rest) = trimStart rest.
Proof.
  unfold is_bullet_line, startsWith, strip_marker. now intros ->.
Qed.

Lemma filter_filter_implied {A} (f g : A -> bool) (l : list A) :
  (forall x, f x = true -> g x = true) ->
  filter f (filter g l) = filter f l.
Proof.
  intros Hfg. induction l as [|x l IH]; simpl; [reflexivity|].
  destruct (g x) eqn:Hg; simpl.
  - now rewrite IH.
  - destruct (f x) eqn:Hf; [|exact IH].
    apply Hfg in Hf. congruence.
Qed.

Lemma bullet_lines_text_lines (text : jsstring) :
  filter is_bullet_line (text_lines text) = bullet_lines text.
Proof.
  unfold text_lines, bullet_lines.
  apply filter_filter_implied, bullet_line_not_blank.
Qed.

(** The runtime functions on a few inputs. *)

Example split_two_lines :
  split LF (js "a" ++ LF :: js "b" ++ [LF]) = [js "a"; js "b"; []].
Proof. reflexivity. Qed.

Example trim_both_ends : trim (js "  a b  ") = js "a b".
Proof. reflexivity. Qed.

Example parse_document :
  JSON_parse_string (jsq " {'a': [1, -2.50, 3e2, true, null], 'b': {'c': 'd\n'}, 'a': 'x'} ")
  = Ok (JObj [ (js "a", JStr (js "x"));
               (js "b", JObj [ (js "c", JStr (js "d" ++ [LF])) ]) ]).
Proof. reflexivity. Qed.

Example parse_numbers :
  map JSON_parse_string [js "0.8"; js "-0"; js "1e5"; js "12.5E-1"; js "0.10"]
  = [Ok (JNum (Dec 8 (-1))); Ok (JNum (Dec 0 0)); Ok (JNum (Dec 100000 0));
     Ok (JNum (Dec 125 (-2))); Ok (JNum (Dec 1 (-1)))].
Proof. vm_compute. reflexivity. Qed.

(** Number literals are rounded to binary64: below the range to 0, beyond it
    to an infinity, and inside it to 53 significant bits. *)
Example parse_numbers_rounded :
  map JSON_parse_string
    [js "1e-400"; js "2e-324"; js "3e-324"; js "1e400"; js "-1e400";
     js "0.1000000000000000000001"; js "9007199254740993";
     js "1.7976931348623157e308"; js "1.7976931348623159e308"]
  = [Ok (JNum (Dec 0 0)); Ok (JNum (Dec 0 0)); Ok (JNum (Dec 5 (-324)));
     Ok (JNum (Infinity false)); Ok (JNum (Infinity true));
     Ok (JNum (Dec 1 (-1))); Ok (JNum (Dec 9007199254740992 0));
     Ok (JNum (Dec (17976931348623157 * 10 ^ 292) 0)); Ok (JNum (Infinity false))].
Proof. vm_compute. reflexivity. Qed.

(** The keys that are array indices come first, in ascending order. *)
Example parse_key_order :
  JSON_parse_string (jsq "{'b':1,'2':2,'a':3,'1':4,'b':5,'01':6}")
  = Ok (JObj [ (js "1", JNum (Dec 4 0)); (js "2", JNum (Dec 2 0));
               (js "b", JNum (Dec 5 0)); (js "a", JNum (Dec 3 0));
               (js "01", JNum (Dec 6 0)) ]).
Proof. vm_compute. reflexivity. Qed.

Example parse_rejects :
  map JSON_parse_string
    [[]; js "01"; js "1."; js ".5"; js "+1"; js "[1,]"; jsq "{'a':1,}";
     jsq "{a:1}"; js "[1 2]"; js "tru"; js "nulll"; js "1 2"; jsq "'abc";
     js "undefined"; js "[object Object]"; js "NaN"]
  = repeat (Throw SyntaxError) 16.
Proof. reflexivity. Qed.

Example parseInt_examples :
  map parseInt_string [js "12"; js " 12 s"; js "-7"; js "0x1F"; js "12.9"; js "soon"; []]
  = [Dec 12 0; Dec 12 0; Dec (-7) 0; Dec 31 0; Dec 12 0; NaN; NaN].
Proof. vm_compute. reflexivity. Qed.

(** A long run of digits is rounded to binary64: 23 nines give the value
    1e23, and 400 nines give [Infinity]. *)
Example parseInt_rounded :
  map parseInt_string
    [js "9007199254740993"; js "99999999999999999999999"; repeat 57%N 400]
  = [Dec 9007199254740992 0; Dec (10 ^ 23) 0; Infinity false].
Proof. vm_compute. reflexivity. Qed.

Example ToString_examples :
  map ToString [JNum (Dec 60 0); JNum (Dec 8 (-1)); JNum (Dec 1 21); JNull;
                JArr [JNum (Dec 1 0); JNull; JArr [JStr (js "a"); JBool true]];
                JObj []]
  = map Ok [js "60"; js "0.8"; js "1e+21"; js "null"; js "1,,a,true";
            js "[object Object]"].
Proof. vm_compute. reflexivity. Qed.

(** A number is printed by its shortest decimal, whatever decimal names
    it. *)
Example ToString_numbers :
  map Number_toString
    [Dec 1000000000000000000001 (-22); Dec 1 (-400); Dec 1 400; Dec (-1) 400;
     Dec (10 ^ 23) 0; Dec 123456789 (-15); Dec 5 (-324); NaN]
  = [js "0.1"; js "0"; js "Infinity"; js "-Infinity"; js "1e+23";
     js "1.23456789e-7"; js "5e-324"; js "NaN"].
Proof. vm_compute. reflexivity. Qed.

(** The numbers the server writes are under the names the runtime gives
    them, and so are the numbers of the examples below. *)
Example literals_canonical :
  map canonical
    [Dec 0 0; Dec 3 (-1); Dec 5 (-1); Dec 8 (-1); Dec 9 (-1); Dec 85 (-2);
     Dec 15 (-1); Dec 5 0; Dec 12 0; Dec 60 0; Dec 800 0; Dec 1500 0]
  = [Dec 0 0; Dec 3 (-1); Dec 5 (-1); Dec 8 (-1); Dec 9 (-1); Dec 85 (-2);
     Dec 15 (-1); Dec 5 0; Dec 12 0; Dec 60 0; Dec 800 0; Dec 1500 0].
Proof. vm_compute. reflexivity. Qed.

(** Truthiness follows the value: a decimal that names 0 is falsy. *)
Example ToBoolean_numbers :
  map (fun n => ToBoolean (JNum n))
    [Dec 0 0; Dec 0 7; Dec 1 (-400); Dec 2 (-324); Dec 3 (-324); Dec 8 (-1);
     Dec (-1) 0; Dec 1 400; Infinity true; NaN]
  = [false; false; false; false; true; true; true; true; true; false].
Proof. vm_compute. reflexivity. Qed.

(** * Properties of the text heuristic *)

(** The loop appends the point of every bullet line, in order. *)
Lemma scan_points (lines : list jsstring) (points : list jsstring) (flow : jsstring) :
  fst (fold_left scan_line lines (points, flow))
  = points ++ map point_of (filter is_bullet_line lines).
Proof.
  revert points flow.
  induction lines as [|line lines IH]; intros points flow; simpl.
  - now rewrite app_nil_r.
  - destruct (is_bullet_line line) eqn:Hb; simpl.
    + rewrite IH, <- app_assoc. reflexivity.
    + destruct ((20 <? List.length line)%nat && negb (nonempty flow)); apply IH.
Qed.

(** The loop keeps the first long line it meets, once and for all. *)
Lemma scan_flow (lines : list jsstring) (points : list jsstring) (flow : jsstring) :
  Forall (fun line => nonempty (trim line) = true) lines ->
  snd (fold_left scan_line lines (points, flow))
  = if nonempty flow then flow
    else match find is_long_line lines with
         | Some line => trim line
         | None => []
         end.
Proof.
  intros Hall. revert points flow.
  induction Hall as [|line lines Hline Hall IH]; intros points flow; simpl.
  - now destruct flow.
  - unfold is_long_line at 1.
    destruct (is_bullet_line line) eqn:Hb; simpl; [apply IH|].
    destruct (20 <? List.length line)%nat eqn:Hlong; simpl.
    + destruct (nonempty flow) eqn:Hflow; simpl.
      * rewrite IH, Hflow. reflexivity.
      * rewrite IH, Hline. reflexivity.
    + apply IH.
Qed.

Lemma text_lines_not_blank (text : jsstring) :
  Forall (fun line => nonempty (trim line) = true) (text_lines text).
Proof.
  apply Forall_forall. intros line Hin.
  apply filter_In in Hin. tauto.
Qed.

Lemma find_text_lines_not_blank (text : jsstring) (f : jsstring -> bool) (line : jsstring) :
  find f (text_lines text) = Some line -> nonempty (trim line) = true.
Proof.
  intros H. apply find_some in H. destruct H as [Hin _].
  pose proof (text_lines_not_blank text) as Hall.
  rewrite Forall_forall in Hall. now apply Hall.
Qed.

Lemma scan_lines_text_lines (text : jsstring) :
  scan_lines (text_lines text)
  = (map point_of (bullet_lines text),
     match find is_long_line (text_lines text) with
     | Some line => trim line
     | None => []
     end).
Proof.
  unfold scan_lines. apply injective_projections; simpl.
  - rewrite scan_points, bullet_lines_text_lines. reflexivity.
  - rewrite scan_flow by apply text_lines_not_blank. reflexivity.
Qed.

(** What [parseTextResponse] returns for a string, in closed form. *)
Lemma parseTextResponse_string (text : jsstring) :
  parseTextResponse (JStr text)
  = Ok (heuristic_candidate (heuristic_points text) (heuristic_flow text)).
Proof.
  unfold parseTextResponse. rewrite scan_lines_text_lines.
  unfold heuristic_candidate, heuristic_points, heuristic_flow. do 3 f_equal.
  - destruct (map point_of (bullet_lines text)); reflexivity.
  - do 3 f_equal.
    destruct (find is_long_line (text_lines text)) as [line|] eqn:Hfind;
      [|reflexivity].
    now rewrite (find_text_lines_not_blank _ _ Hfind).
Qed.

Lemma nonempty_app_ELLIPSIS (s : jsstring) : nonempty (s ++ ELLIPSIS) = true.
Proof. destruct s; reflexivity. Qed.

Lemma heuristic_flow_nonempty (text : jsstring) :
  nonempty (heuristic_flow text) = true.
Proof.
  unfold heuristic_flow.
  destruct (find is_long_line (text_lines text)) as [line|] eqn:Hfind.
  - exact (find_text_lines_not_blank _ _ Hfind).
  - apply nonempty_app_ELLIPSIS.
Qed.

Lemma heuristic_points_bounds (text : jsstring) :
  (1 <= List.length (heuristic_points text) <= 5)%nat.
Proof.
  unfold heuristic_points.
  destruct (map point_of (bullet_lines text)) as [|p ps]; [simpl; lia|].
  rewrite length_firstn. simpl List.length. lia.
Qed.

(** The heuristic candidate is an object whose three fields are truthy. *)
Lemma merge_heuristic (points : list jsstring) (flow : jsstring) (content : JSValue) :
  nonempty flow = true ->
  merge (heuristic_candidate points flow) content
  = Ok {| summary_points := JArr (map JStr points);
          detailed_flow := JStr flow;
          code_snippets := Some JUndefined;
          confidence := JNum confidence_default;
          mobile_optimized := true |}.
Proof.
  intros Hflow. unfold merge, heuristic_candidate. cbn.
  destruct flow; [discriminate|]. reflexivity.
Qed.

(** * Properties of [JSON.parse] *)

Lemma complete_defined (v : JSValue) (st : list frame) :
  v <> JUndefined -> done_defined (complete v st).
Proof.
  intros Hv. destruct st as [|[done|props key] st]; simpl; auto.
Qed.

Lemma feed_defined (p : pstate) (t : token) (p' : pstate) :
  feed p t = Some p' -> done_defined p'.
Proof.
  destruct p, t; simpl; try discriminate;
    intros [= <-]; simpl; auto; apply complete_defined; try discriminate;
    destruct l; discriminate.
Qed.

Lemma emit_defined (p : pstate) (t : token) (state : lexer * pstate) :
  emit p t = Some state -> done_defined (snd state).
Proof.
  unfold emit. destruct (feed p t) as [p'|] eqn:Hfeed; [|discriminate].
  intros [= <-]. simpl. eapply feed_defined, Hfeed.
Qed.

Ltac split_ifs :=
  repeat match goal with
         | |- context [if ?b then _ else _] => destruct b
         end.

Lemma idle_step_defined (p : pstate) (c : N) (state : lexer * pstate) :
  done_defined p -> idle_step p c = Some state -> done_defined (snd state).
Proof.
  intros Hp. unfold idle_step. split_ifs;
    try (apply emit_defined); try discriminate; now intros [= <-].
Qed.

Lemma step_defined (state : lexer * pstate) (c : N) (state' : lexer * pstate) :
  done_defined (snd state) -> step state c = Some state' ->
  done_defined (snd state').
Proof.
  destruct state as [lx p]. simpl. intros Hp.
  destruct lx as [|acc|acc|acc k u|more l|l]; simpl.
  - now apply idle_step_defined.
  - split_ifs; try (apply emit_defined); try discriminate; now intros [= <-].
  - destruct (c =? 117)%N; [now intros [= <-]|].
    destruct (escape_unit c); [now intros [= <-] | discriminate].
  - destruct (digit_value 16 c); [|discriminate].
    destruct k as [|[|k]]; now intros [= <-].
  - destruct more as [|x rest]; [discriminate|].
    destruct (c =? x)%N; [|discriminate].
    destruct rest; [apply emit_defined | now intros [= <-]].
  - destruct (numlit_step l c); [now intros [= <-]|].
    destruct (numlit_complete l); [|discriminate].
    destruct (feed p (TNum (numlit_value l))) as [p'|] eqn:Hfeed; [|discriminate].
    apply idle_step_defined. eapply feed_defined, Hfeed.
Qed.

Lemma run_defined (s : jsstring) (state state' : lexer * pstate) :
  done_defined (snd state) -> run state s = Some state' ->
  done_defined (snd state').
Proof.
  revert state. induction s as [|c s IH]; intros state Hp; simpl.
  - now intros [= <-].
  - destruct (step state c) as [state1|] eqn:Hstep; [|discriminate].
    apply IH. eapply step_defined; eassumption.
Qed.

Lemma JSON_parse_string_defined (text : jsstring) (v : JSValue) :
  JSON_parse_string text = Ok v -> v <> JUndefined.
Proof.
  unfold JSON_parse_string.
  destruct (run (LIdle, PValue []) text) as [[lx p]|] eqn:Hrun; [|discriminate].
  apply run_defined in Hrun; [|exact I]. simpl in Hrun.
  destruct (finish (lx, p)) as [w|] eqn:Hfin; [|discriminate].
  intros [= <-]. unfold finish in Hfin.
  destruct lx; try discriminate.
  - destruct p; try discriminate. now injection Hfin as <-.
  - destruct (numlit_complete l); [|discriminate].
    destruct (feed p (TNum (numlit_value l))) as [[]|] eqn:Hfeed; try discriminate.
    injection Hfin as <-. exact (feed_defined _ _ Hfeed).
Qed.

(** Reading goes on from the state reached so far. *)
Lemma run_app (a b : jsstring) (state : lexer * pstate) :
  run state (a ++ b)
  = match run state a with
    | Some state' => run state' b
    | None => None
    end.
Proof.
  revert state. induction a as [|c a IH]; intros state; simpl; [reflexivity|].
  destruct (step state c); [apply IH | reflexivity].
Qed.

Lemma run_cons (c : N) (s : jsstring) (state : lexer * pstate) :
  run state (c :: s)
  = match step state c with
    | Some state' => run state' s
    | None => None
    end.
Proof. reflexivity. Qed.

(** Plain units are taken into the string one by one. *)
Lemma run_plain (s rest acc : jsstring) (p : pstate) :
  Forall plain s ->
  run (LStr acc, p) (s ++ rest) = run (LStr (rev s ++ acc), p) rest.
Proof.
  intros Hs. revert acc. induction Hs as [|c s (H32 & H34 & H92) Hs IH]; intros acc.
  - reflexivity.
  - rewrite <- app_comm_cons, run_cons. unfold step.
    destruct (N.eqb_spec c 34); [contradiction|].
    destruct (N.eqb_spec c 92); [contradiction|].
    destruct (N.ltb_spec c 32); [lia|].
    rewrite IH. simpl rev. now rewrite <- app_assoc.
Qed.

(** A string between quotation marks is one string token. *)
Lemma run_quote (s rest : jsstring) (p : pstate) :
  Forall plain s ->
  run (LIdle, p) (quote s ++ rest)
  = match feed p (TStr s) with
    | Some p' => run (LIdle, p') rest
    | None => None
    end.
Proof.
  intros Hs. unfold quote. rewrite <- app_comm_cons, <- app_assoc, run_cons.
  change (step (LIdle, p) 34) with (Some (LStr [], p)). cbv iota.
  rewrite (run_plain _ _ p Hs), <- app_comm_cons, run_cons. unfold step.
  rewrite N.eqb_refl. unfold emit. rewrite app_nil_r, rev_involutive.
  now destruct (feed p (TStr s)).
Qed.

(** The elements after the first, up to the closing bracket. *)
Lemma run_more_elements (strings : list jsstring) (done : list JSValue)
    (st : list frame) (rest : jsstring) :
  Forall (Forall plain) strings ->
  run (LIdle, PArrNext done st)
      (List.concat (map (fun s => 44%N :: quote s) strings) ++ 93%N :: rest)
  = run (LIdle, complete (JArr (rev done ++ map JStr strings)) st) rest.
Proof.
  intros Hall. revert done.
  induction Hall as [|s strings Hs Hall IH]; intros done.
  - cbn [map List.concat app]. rewrite run_cons, app_nil_r. reflexivity.
  - cbn [map List.concat]. rewrite <- app_assoc, <- app_comm_cons, run_cons.
    change (step (LIdle, PArrNext done st) 44)
      with (Some (LIdle, PValue (FArr done :: st))). cbv iota.
    rewrite (run_quote _ _ Hs).
    change (feed (PValue (FArr done :: st)) (TStr s))
      with (Some (PArrNext (JStr s :: done) st)). cbv iota.
    rewrite IH. cbn [rev map]. now rewrite <- app_assoc.
Qed.

(** A list of strings between brackets is read as the array of the strings. *)
Lemma run_elements (strings : list jsstring) (st : list frame) (rest : jsstring) :
  Forall (Forall plain) strings ->
  run (LIdle, PArrStart st) (elements_text strings ++ 93%N :: rest)
  = run (LIdle, complete (JArr (map JStr strings)) st) rest.
Proof.
  intros Hall. destruct Hall as [|s strings Hs Hall].
  - reflexivity.
  - unfold elements_text. rewrite <- app_assoc, (run_quote _ _ Hs).
    change (feed (PArrStart st) (TStr s)) with (Some (PArrNext [JStr s] st)).
    cbv iota. now rewrite (run_more_elements _ _ _ Hall).
Qed.

(** The document of the expected shape is read as the object it writes
    out, whatever the number and the length of its strings. *)
Lemma JSON_parse_summary_document (points : list jsstring) (flow : jsstring) :
  Forall (Forall plain) points -> Forall plain flow ->
  JSON_parse_string (summary_document points flow)
  = Ok (JObj [ (js "summary_points", JArr (map JStr points));
               (js "detailed_flow", JStr flow) ]).
Proof.
  intros Hpoints Hflow. unfold JSON_parse_string, summary_document.
  rewrite run_app.
  change (run (LIdle, PValue []) (jsq "{'summary_points':["))
    with (Some (LIdle, PArrStart [FObj [] (js "summary_points")])).
  cbv iota.
  change (jsq "],'detailed_flow':") with (93%N :: jsq ",'detailed_flow':").
  rewrite <- app_comm_cons, (run_elements _ _ Hpoints).
  rewrite run_app.
  change (run _ (jsq ",'detailed_flow':"))
    with (Some (LIdle, PValue [FObj [(js "summary_points", JArr (map JStr points))]
                                 (js "detailed_flow")])).
  cbv iota. rewrite (run_quote _ _ Hflow). reflexivity.
Qed.

(** * Properties of the normalizer *)

(** Every property of a value that is neither [undefined] nor [null] can be
    read. *)
Lemma get_ok (v : JSValue) (name : jsstring) :
  v <> JUndefined -> v <> JNull -> exists x, get v name = Ok x.
Proof.
  intros Hu Hn. destruct v; simpl; eauto; contradiction.
Qed.

(** The result is the fallback, or the merge of a candidate. *)
Lemma formatForMobile_cases (claudeResponse : JSValue) :
  formatForMobile claudeResponse = fallback
  \/ exists content parsedContent,
       extract_text claudeResponse = Ok content
       /\ parse_content content = Ok parsedContent
       /\ merge parsedContent content = Ok (formatForMobile claudeResponse).
Proof.
  unfold formatForMobile, formatForMobile_body.
  destruct (extract_text claudeResponse) as [content|e]; simpl; [|now left].
  destruct (parse_content content) as [parsedContent|e] eqn:Hparse;
    simpl; [|now left].
  destruct (merge parsedContent content) as [r|e] eqn:Hmerge; simpl; [|now left].
  right. exists content, parsedContent. auto.
Qed.

(** The candidate comes from the JSON text, or the text is not JSON and the
    candidate is the heuristic one. *)
Lemma parse_content_cases (content parsedContent : JSValue) :
  parse_content content = Ok parsedContent ->
  JSON_parse content = Ok parsedContent
  \/ exists text e,
       content = JStr text
       /\ JSON_parse_string text = Throw e
       /\ parseTextResponse (JStr text) = Ok parsedContent.
Proof.
  unfold parse_content, try_catch.
  destruct (JSON_parse content) as [v|e] eqn:Hjson.
  - intros [= <-]. now left.
  - intros Hheur. right.
    destruct content; try discriminate Hheur.
    exists s, e. auto.
Qed.

(** The fields of a merged record. *)
Lemma merge_inv (parsedContent content : JSValue) (r : MobileSummary) :
  merge parsedContent content = Ok r ->
  exists sp df cs cf,
    get parsedContent (js "summary_points") = Ok sp
    /\ get parsedContent (js "detailed_flow") = Ok df
    /\ get parsedContent (js "code_snippets") = Ok cs
    /\ get parsedContent (js "confidence") = Ok cf
    /\ summary_points r = or_else sp (JArr [JStr (js "Response received")])
    /\ (if ToBoolean df then detailed_flow r = df
        else truncated content = Ok (detailed_flow r))
    /\ code_snippets r = Some cs
    /\ confidence r = or_else cf (JNum confidence_default)
    /\ mobile_optimized r = true.
Proof.
  unfold merge, bind.
  destruct (get parsedContent (js "summary_points")) as [sp|]; [|discriminate].
  destruct (get parsedContent (js "detailed_flow")) as [df|]; [|discriminate].
  destruct (ToBoolean df) eqn:Hdf.
  - destruct (get parsedContent (js "code_snippets")) as [cs|]; [|discriminate].
    destruct (get parsedContent (js "confidence")) as [cf|]; [|discriminate].
    intros [= <-]. exists sp, df, cs, cf. rewrite Hdf. simpl. auto 10.
  - destruct (truncated content) as [d|]; [|discriminate].
    destruct (get parsedContent (js "code_snippets")) as [cs|]; [|discriminate].
    destruct (get parsedContent (js "confidence")) as [cf|]; [|discriminate].
    intros [= <-]. exists sp, df, cs, cf. rewrite Hdf. simpl. auto 10.
Qed.

Lemma parse_content_string (text : jsstring) :
  parse_content (JStr text)
  = match JSON_parse_string text with
    | Ok v => Ok v
    | Throw _ => Ok (heuristic_candidate (heuristic_points text) (heuristic_flow text))
    end.
Proof.
  unfold parse_content.
  change (JSON_parse (JStr text)) with (JSON_parse_string text).
  rewrite parseTextResponse_string.
  now destruct (JSON_parse_string text).
Qed.

(** The record of the heuristic path. *)
Lemma formatForMobile_heuristic (claudeResponse : JSValue) (text : jsstring) (e : JSError) :
  extract_text claudeResponse = Ok (JStr text) ->
  JSON_parse_string text = Throw e ->
  formatForMobile claudeResponse
  = {| summary_points := JArr (map JStr (heuristic_points text));
       detailed_flow := JStr (heuristic_flow text);
       code_snippets := Some JUndefined;
       confidence := JNum confidence_default;
       mobile_optimized := true |}.
Proof.
  intros Hext Hjson. unfold formatForMobile, formatForMobile_body.
  rewrite Hext. simpl. rewrite parse_content_string, Hjson. simpl.
  now rewrite merge_heuristic by apply heuristic_flow_nonempty.
Qed.

(** The record of the JSON path, when the document is not [null]. *)
Lemma formatForMobile_json (claudeResponse : JSValue) (text : jsstring) (parsed : JSValue) :
  extract_text claudeResponse = Ok (JStr text) ->
  JSON_parse_string text = Ok parsed ->
  parsed <> JNull ->
  exists sp df cs cf,
    get parsed (js "summary_points") = Ok sp
    /\ get parsed (js "detailed_flow") = Ok df
    /\ get parsed (js "code_snippets") = Ok cs
    /\ get parsed (js "confidence") = Ok cf
    /\ formatForMobile claudeResponse
       = {| summary_points := or_else sp (JArr [JStr (js "Response received")]);
            detailed_flow := or_else df (JStr (substring0 200 text ++ ELLIPSIS));
            code_snippets := Some cs;
            confidence := or_else cf (JNum confidence_default);
            mobile_optimized := true |}.
Proof.
  intros Hext Hjson Hnull.
  pose proof (JSON_parse_string_defined _ Hjson) as Hdef.
  destruct (get_ok (js "summary_points") Hdef Hnull) as [sp Hsp].
  destruct (get_ok (js "detailed_flow") Hdef Hnull) as [df Hdf].
  destruct (get_ok (js "code_snippets") Hdef Hnull) as [cs Hcs].
  destruct (get_ok (js "confidence") Hdef Hnull) as [cf Hcf].
  exists sp, df, cs, cf. repeat (split; [assumption|]).
  unfold formatForMobile, formatForMobile_body.
  rewrite Hext. simpl. rewrite parse_content_string, Hjson. simpl.
  unfold merge. rewrite Hsp, Hdf, Hcs, Hcf. simpl. unfold or_else.
  destruct (ToBoolean df); reflexivity.
Qed.

(** X11.  The round trip on the documents of the expected shape: the points,
    as many as they are, and the flow come back unchanged, and the
    confidence left out is filled in. *)
Lemma formatForMobile_summary_document (points : list jsstring) (flow : jsstring) :
  Forall (Forall plain) points -> Forall plain flow -> flow <> [] ->
  formatForMobile (payload_of_text (summary_document points flow))
  = {| summary_points := JArr (map JStr points);
       detailed_flow := JStr flow;
       code_snippets := Some JUndefined;
       confidence := JNum confidence_default;
       mobile_optimized := true |}.
Proof.
  intros Hpoints Hflow Hne.
  assert (Hobj : JObj [ (js "summary_points", JArr (map JStr points));
                        (js "detailed_flow", JStr flow) ] <> JNull) by discriminate.
  destruct (@formatForMobile_json (payload_of_text (summary_document points flow))
              _ _ eq_refl (JSON_parse_summary_document Hpoints Hflow) Hobj)
    as (sp & df & cs & cf & Hsp & Hdf & Hcs & Hcf & ->).
  cbn in Hsp, Hdf, Hcs, Hcf.
  injection Hsp as <-. injection Hdf as <-. injection Hcs as <-. injection Hcf as <-.
  unfold or_else. simpl. destruct flow; [contradiction | reflexivity].
Qed.

Lemma fallback_has_no_snippets (r : MobileSummary) :
  code_snippets r <> None -> r <> fallback.
Proof. intros H ->. now apply H. Qed.

(** The fallback is returned exactly when the body of the [try] throws. *)
Lemma fallback_iff_fault (claudeResponse : JSValue) :
  formatForMobile claudeResponse = fallback
  <-> exists e, formatForMobile_body claudeResponse = Throw e.
Proof.
  unfold formatForMobile, formatForMobile_body, bind.
  destruct (extract_text claudeResponse) as [content|e]; simpl; [|split; eauto].
  destruct (parse_content content) as [parsed|e]; simpl; [|split; eauto].
  destruct (merge parsed content) as [r|e] eqn:Hmerge; simpl; [|split; eauto].
  split; [|intros [e He]; discriminate].
  intros Hr. exfalso. revert Hr. apply fallback_has_no_snippets.
  destruct (merge_inv _ _ Hmerge) as (sp & df & cs & cf & H). 
  destruct H as (_ & _ & _ & _ & _ & _ & -> & _). discriminate.
Qed.

(** C1, as stated, fails: the text [{"summary_points":[]}] is valid JSON and
    its empty list is returned as it is, so the result has no summary point
    at all. *)
Lemma empty_summary_points_pass_through :
  ~ points_in_bounds
      (summary_points (formatForMobile (payload_of_text (jsq "{'summary_points':[]}")))).
Proof.
  intros (l & Hl & Hlen). vm_compute in Hl. injection Hl as <-.
  simpl in Hlen. lia.
Qed.

(** C1, amended.  [formatForMobile] returns a record for every payload, with
    [mobile_optimized] true, and any fault inside it gives the fallback
    record.  [summary_points] is a list of one to five elements unless the
    text is a JSON document that brings a truthy [summary_points] of its
    own, which is returned as it is; in particular it is such a list for
    every text that is not valid JSON. *)
Theorem normalizer_total (claudeResponse : JSValue) :
  mobile_optimized (formatForMobile claudeResponse) = true
  /\ (forall e, formatForMobile_body claudeResponse = Throw e ->
                formatForMobile claudeResponse = fallback)
  /\ (points_in_bounds (summary_points (formatForMobile claudeResponse))
      \/ exists content parsedContent,
           extract_text claudeResponse = Ok content
           /\ JSON_parse content = Ok parsedContent
           /\ get parsedContent (js "summary_points")
              = Ok (summary_points (formatForMobile claudeResponse))
           /\ ToBoolean (summary_points (formatForMobile claudeResponse)) = true)
  /\ (forall text e,
        extract_text claudeResponse = Ok (JStr text) ->
        JSON_parse_string text = Throw e ->
        exists points,
          summary_points (formatForMobile claudeResponse) = JArr (map JStr points)
          /\ (1 <= List.length points <= 5)%nat).
Proof.
  assert (Hone : forall s, points_in_bounds (JArr [JStr s])).
  { intros s. exists [JStr s]. simpl. split; [reflexivity | lia]. }
  repeat split.
  - destruct (formatForMobile_cases claudeResponse) as [-> | (c & p & _ & _ & Hm)];
      [reflexivity|].
    destruct (merge_inv _ _ Hm) as (sp & df & cs & cf & H). tauto.
  - intros e He. apply fallback_iff_fault. eauto.
  - destruct (formatForMobile_cases claudeResponse)
      as [-> | (content & parsed & Hext & Hparse & Hm)]; [left; apply Hone|].
    destruct (merge_inv _ _ Hm) as (sp & df & cs & cf & Hsp & _ & _ & _ & Hr & _).
    rewrite Hr. unfold or_else.
    destruct (ToBoolean sp) eqn:Htruthy; [|left; apply Hone].
    destruct (parse_content_cases _ Hparse) as [Hjson | (text & e & -> & _ & Hheur)].
    + right. exists content, parsed. auto.
    + left. rewrite parseTextResponse_string in Hheur. injection Hheur as <-.
      injection Hsp as <-. exists (map JStr (heuristic_points text)).
      split; [reflexivity|]. rewrite length_map. apply heuristic_points_bounds.
  - intros text e Hext Hjson. rewrite (formatForMobile_heuristic _ Hext Hjson).
    exists (heuristic_points text). split; [reflexivity|].
    apply heuristic_points_bounds.
Qed.

(** The amended C1 at a plain sentence. *)
Lemma normalizer_total_witness :
  exists points,
    summary_points (formatForMobile (payload_of_text (js "All good, nothing to report.")))
    = JArr (map JStr points)
    /\ (1 <= List.length points <= 5)%nat.
Proof.
  destruct (normalizer_total (payload_of_text (js "All good, nothing to report.")))
    as (_ & _ & _ & H).
  apply (H (js "All good, nothing to report.") SyntaxError); reflexivity.
Defined.

(** C4, as stated, fails: the text [null] is extracted without a fault, and
    the result is the fallback record all the same, because reading a
    property of the parsed [null] throws. *)
Lemma fallback_without_extraction_fault :
  extract_text (payload_of_text (js "null")) = Ok (JStr (js "null"))
  /\ formatForMobile (payload_of_text (js "null")) = fallback.
Proof. split; reflexivity. Qed.

(** C4, amended.  The fallback record is returned exactly when a step of
    [formatForMobile] throws.  A fault of the extraction is one such case;
    when the extraction yields a string, the only other one is a text that
    parses as the JSON literal [null], and every other string gives the
    result of the JSON or of the heuristic path.  A first block whose text
    is absent, [null], a boolean or an object gives the fallback as well. *)
Theorem fallback_exactly_on_fault (claudeResponse : JSValue) :
  (formatForMobile claudeResponse = fallback
   <-> exists e, formatForMobile_body claudeResponse = Throw e)
  /\ (forall e, extract_text claudeResponse = Throw e ->
                formatForMobile claudeResponse = fallback)
  /\ (forall text,
        extract_text claudeResponse = Ok (JStr text) ->
        (formatForMobile claudeResponse = fallback
         <-> JSON_parse_string text = Ok JNull))
  /\ (forall content,
        extract_text claudeResponse = Ok content ->
        no_text content ->
        formatForMobile claudeResponse = fallback).
Proof.
  split; [apply fallback_iff_fault|]. split; [|split].
  - intros e He. unfold formatForMobile, formatForMobile_body. now rewrite He.
  - intros text Hext. split.
    + intros Hfb. destruct (JSON_parse_string text) as [parsed|e] eqn:Hjson.
      * assert (Hp : parsed = JNull \/ parsed <> JNull)
          by (destruct parsed; (now left) || (right; discriminate)).
        destruct Hp as [-> | Hp]; [reflexivity|].
        destruct (formatForMobile_json _ Hext Hjson Hp)
          as (sp & df & cs & cf & _ & _ & _ & _ & Hr).
        rewrite Hr in Hfb. discriminate Hfb.
      * rewrite (formatForMobile_heuristic _ Hext Hjson) in Hfb. discriminate Hfb.
    + intros Hjson. unfold formatForMobile, formatForMobile_body.
      rewrite Hext. simpl. now rewrite parse_content_string, Hjson.
  - intros content Hext Hno. unfold formatForMobile, formatForMobile_body.
    rewrite Hext. simpl.
    destruct Hno as [-> | [-> | [[[] ->] | [props ->]]]]; try reflexivity.
    unfold parse_content, JSON_parse. simpl.
    destruct (lookup (js "toString") props); reflexivity.
Qed.

(** The amended C4 at the payload with no content block, and at a plain
    text. *)
Lemma fallback_exactly_on_fault_witness :
  formatForMobile (JObj [(js "content", JArr [])]) = fallback
  /\ formatForMobile (payload_of_text (js "hello")) <> fallback.
Proof.
  split.
  - destruct (fallback_exactly_on_fault (JObj [(js "content", JArr [])]))
      as (_ & H & _).
    apply (H TypeError). reflexivity.
  - destruct (fallback_exactly_on_fault (payload_of_text (js "hello")))
      as (_ & _ & H & _).
    intros Hfb. apply (H (js "hello")) in Hfb; [discriminate Hfb | reflexivity].
Defined.

(** C2, as stated, fails: this text is valid JSON of the expected shape, with
    an empty [detailed_flow] and the confidence 0, and neither value is
    returned: the result carries the start of the text and 0.8 instead. *)
Lemma falsy_fields_not_returned :
  JSON_parse_string (jsq "{'summary_points':['a'],'detailed_flow':'','confidence':0}")
  = Ok (JObj [ (js "summary_points", JArr [JStr (js "a")]);
               (js "detailed_flow", JStr []);
               (js "confidence", JNum (Dec 0 0)) ])
  /\ detailed_flow
       (formatForMobile
          (payload_of_text
             (jsq "{'summary_points':['a'],'detailed_flow':'','confidence':0}")))
     <> JStr []
  /\ confidence
       (formatForMobile
          (payload_of_text
             (jsq "{'summary_points':['a'],'detailed_flow':'','confidence':0}")))
     <> JNum (Dec 0 0).
Proof. split; [reflexivity | split; discriminate]. Qed.

(** A confidence below the range of binary64 is the number 0 and is replaced
    like it. *)
Example underflowing_confidence_defaulted :
  confidence
    (formatForMobile
       (payload_of_text
          (jsq "{'summary_points':['a'],'detailed_flow':'d','confidence':1e-400}")))
  = JNum confidence_default.
Proof. vm_compute. reflexivity. Qed.

(** C2, amended.  When the text is a JSON object whose [summary_points] is a
    list and whose [detailed_flow] is a string that is not empty,
    [formatForMobile] returns both unchanged, passes [code_snippets] through
    ([undefined] when the object has none), returns a [confidence] that is a
    number other than 0 unchanged and takes 0.8 when the object has none or
    has 0.  The number is the one [JSON.parse] reads, so a literal below the
    range of binary64, such as 1e-400, is the number 0. *)
Theorem json_round_trip (claudeResponse : JSValue) (text : jsstring)
    (props : list (jsstring * JSValue)) (points : list JSValue) (flow : jsstring) :
  extract_text claudeResponse = Ok (JStr text) ->
  JSON_parse_string text = Ok (JObj props) ->
  lookup (js "summary_points") props = Some (JArr points) ->
  lookup (js "detailed_flow") props = Some (JStr flow) ->
  flow <> [] ->
  summary_points (formatForMobile claudeResponse) = JArr points
  /\ detailed_flow (formatForMobile claudeResponse) = JStr flow
  /\ code_snippets (formatForMobile claudeResponse)
     = Some (match lookup (js "code_snippets") props with
             | Some v => v
             | None => JUndefined
             end)
  /\ (lookup (js "confidence") props = None ->
      confidence (formatForMobile claudeResponse) = JNum confidence_default)
  /\ (forall n,
        lookup (js "confidence") props = Some (JNum n) ->
        ToBoolean (JNum n) = true ->
        confidence (formatForMobile claudeResponse) = JNum n)
  /\ (lookup (js "confidence") props = Some (JNum (Dec 0 0)) ->
      confidence (formatForMobile claudeResponse) = JNum confidence_default)
  /\ mobile_optimized (formatForMobile claudeResponse) = true.
Proof.
  intros Hext Hjson Hsp Hdf Hflow.
  assert (Hobj : JObj props <> JNull) by discriminate.
  destruct (formatForMobile_json _ Hext Hjson Hobj)
    as (sp & df & cs & cf & Hsp' & Hdf' & Hcs' & Hcf' & ->).
  simpl in Hsp', Hdf', Hcs', Hcf'. rewrite Hsp in Hsp'. rewrite Hdf in Hdf'.
  injection Hsp' as <-. injection Hdf' as <-. injection Hcs' as <-.
  injection Hcf' as <-. simpl.
  repeat split.
  - destruct flow; [contradiction | reflexivity].
  - intros ->. reflexivity.
  - intros n -> Hn. unfold or_else. cbn [ToBoolean]. now rewrite Hn.
  - intros ->. reflexivity.
Qed.

(** The amended C2 at a document with all four fields, and at one whose
    confidence is below the range of binary64. *)
Lemma json_round_trip_witness :
  (let r := formatForMobile
              (payload_of_text
                 (jsq "{'summary_points':['a','b'],'detailed_flow':'d','code_snippets':['x'],'confidence':0.9}")) in
   summary_points r = JArr [JStr (js "a"); JStr (js "b")]
   /\ detailed_flow r = JStr (js "d")
   /\ code_snippets r = Some (JArr [JStr (js "x")])
   /\ confidence r = JNum (Dec 9 (-1)))
  /\ confidence
       (formatForMobile
          (payload_of_text
             (jsq "{'summary_points':['a'],'detailed_flow':'d','confidence':1e-400}")))
     = JNum confidence_default.
Proof.
  split; [|
    assert (Hd : js "d" <> []) by discriminate;
    destruct (@json_round_trip
                (payload_of_text
                   (jsq "{'summary_points':['a'],'detailed_flow':'d','confidence':1e-400}"))
                (jsq "{'summary_points':['a'],'detailed_flow':'d','confidence':1e-400}")
                [ (js "summary_points", JArr [JStr (js "a")]);
                  (js "detailed_flow", JStr (js "d"));
                  (js "confidence", JNum (Dec 0 0)) ]
                [JStr (js "a")] (js "d")
                eq_refl eq_refl eq_refl eq_refl Hd)
      as (_ & _ & _ & _ & _ & Hzero & _);
    exact (Hzero eq_refl) ].
  pose (text := jsq "{'summary_points':['a','b'],'detailed_flow':'d','code_snippets':['x'],'confidence':0.9}").
  pose (props := [ (js "summary_points", JArr [JStr (js "a"); JStr (js "b")]);
                   (js "detailed_flow", JStr (js "d"));
                   (js "code_snippets", JArr [JStr (js "x")]);
                   (js "confidence", JNum (Dec 9 (-1))) ]).
  assert (Hflow : js "d" <> []) by discriminate.
  destruct (@json_round_trip (payload_of_text text) text props
              [JStr (js "a"); JStr (js "b")] (js "d")
              eq_refl eq_refl eq_refl eq_refl Hflow)
    as (Hsp & Hdf & Hcs & _ & Hcf & _).
  intros r. split; [exact Hsp|]. split; [exact Hdf|]. split; [exact Hcs|].
  apply (Hcf (Dec 9 (-1))); reflexivity.
Defined.

(** C3, as stated, fails: the JSON stage gives a candidate whose
    [summary_points] is present and empty, and the output keeps the empty
    list instead of the default. *)
Lemma empty_list_is_not_defaulted :
  parse_content (JStr (jsq "{'summary_points':[],'detailed_flow':'d'}"))
  = Ok (JObj [ (js "summary_points", JArr []); (js "detailed_flow", JStr (js "d")) ])
  /\ summary_points
       (formatForMobile
          (payload_of_text (jsq "{'summary_points':[],'detailed_flow':'d'}")))
     <> JArr [JStr (js "Response received")].
Proof. split; [reflexivity | discriminate]. Qed.

Lemma parse_content_defined (text : jsstring) (candidate : JSValue) :
  parse_content (JStr text) = Ok candidate -> candidate <> JUndefined.
Proof.
  rewrite parse_content_string.
  destruct (JSON_parse_string text) as [v|e] eqn:Hjson; intros [= <-].
  - exact (JSON_parse_string_defined _ Hjson).
  - discriminate.
Qed.

(** C3, amended.  For every candidate of the JSON or of the heuristic stage
    but [null], each of [summary_points], [detailed_flow] and [confidence]
    is the candidate's value when that value is truthy, which a list always
    is, even an empty one; it is the default of the field when the value is
    absent ([undefined]), [null] or the empty string: the list with the one
    string "Response received", the first 200 units of the text followed by
    "...", and 0.8.  [code_snippets] is the candidate's value, [undefined]
    when it has none, and [mobile_optimized] is true.  The candidate [null],
    which the JSON stage gives for the text [null], has no fields to read:
    the record is the fallback. *)
Theorem merge_rule (claudeResponse : JSValue) (text : jsstring)
    (candidate : JSValue) :
  extract_text claudeResponse = Ok (JStr text) ->
  parse_content (JStr text) = Ok candidate ->
  (candidate = JNull /\ formatForMobile claudeResponse = fallback)
  \/ (exists sp df cs cf,
        get candidate (js "summary_points") = Ok sp
        /\ get candidate (js "detailed_flow") = Ok df
        /\ get candidate (js "code_snippets") = Ok cs
        /\ get candidate (js "confidence") = Ok cf
        /\ (ToBoolean sp = true ->
            summary_points (formatForMobile claudeResponse) = sp)
        /\ (absent_or_empty sp ->
            summary_points (formatForMobile claudeResponse)
            = JArr [JStr (js "Response received")])
        /\ (ToBoolean df = true ->
            detailed_flow (formatForMobile claudeResponse) = df)
        /\ (absent_or_empty df ->
            detailed_flow (formatForMobile claudeResponse)
            = JStr (substring0 200 text ++ ELLIPSIS))
        /\ (ToBoolean cf = true ->
            confidence (formatForMobile claudeResponse) = cf)
        /\ (absent_or_empty cf ->
            confidence (formatForMobile claudeResponse) = JNum confidence_default)
        /\ code_snippets (formatForMobile claudeResponse) = Some cs
        /\ mobile_optimized (formatForMobile claudeResponse) = true
        /\ (forall l, ToBoolean (JArr l) = true)).
Proof.
  intros Hext Hparse.
  assert (Hnull : candidate = JNull \/ candidate <> JNull)
    by (destruct candidate; (now left) || (right; discriminate)).
  destruct Hnull as [-> | Hnull].
  { left. split; [reflexivity|].
    unfold formatForMobile, formatForMobile_body.
    rewrite Hext. simpl. now rewrite Hparse. }
  right.
  pose proof (parse_content_defined _ Hparse) as Hdef.
  destruct (get_ok (js "summary_points") Hdef Hnull) as [sp Hsp].
  destruct (get_ok (js "detailed_flow") Hdef Hnull) as [df Hdf].
  destruct (get_ok (js "code_snippets") Hdef Hnull) as [cs Hcs].
  destruct (get_ok (js "confidence") Hdef Hnull) as [cf Hcf].
  exists sp, df, cs, cf. repeat (split; [assumption|]).
  assert (Hr : formatForMobile claudeResponse
               = {| summary_points := or_else sp (JArr [JStr (js "Response received")]);
                    detailed_flow := or_else df (JStr (substring0 200 text ++ ELLIPSIS));
                    code_snippets := Some cs;
                    confidence := or_else cf (JNum confidence_default);
                    mobile_optimized := true |}).
  { unfold formatForMobile, formatForMobile_body.
    rewrite Hext. simpl. rewrite Hparse. simpl.
    unfold merge. rewrite Hsp, Hdf, Hcs, Hcf. simpl. unfold or_else.
    destruct (ToBoolean df); reflexivity. }
  rewrite Hr. simpl.
  assert (Hor : forall v d, (ToBoolean v = true -> or_else v d = v)
                            /\ (absent_or_empty v -> or_else v d = d)).
  { intros v d. unfold or_else. split.
    - now intros ->.
    - intros [-> | [-> | ->]]; reflexivity. }
  repeat split; try apply Hor.
Qed.

(** The amended C3 at a document that leaves every field out, and at the
    document [null]. *)
Lemma merge_rule_witness :
  (let r := formatForMobile (payload_of_text (jsq "{'note':'x'}")) in
   summary_points r = JArr [JStr (js "Response received")]
   /\ detailed_flow r = JStr (jsq "{'note':'x'}" ++ ELLIPSIS)
   /\ confidence r = JNum confidence_default)
  /\ formatForMobile (payload_of_text (js "null")) = fallback.
Proof.
  split.
  - destruct (@merge_rule (payload_of_text (jsq "{'note':'x'}")) (jsq "{'note':'x'}")
                (JObj [(js "note", JStr (js "x"))]) eq_refl eq_refl)
      as [[Hnull _] | (sp & df & cs & cf & Hsp & Hdf & _ & Hcf & H)];
      [discriminate Hnull|].
    injection Hsp as <-. injection Hdf as <-. injection Hcf as <-.
    destruct H as (_ & Hs & _ & Hd & _ & Hc & _).
    intros r. split; [apply Hs | split; [apply Hd | apply Hc]]; now left.
  - destruct (@merge_rule (payload_of_text (js "null")) (js "null") JNull
                eq_refl eq_refl)
      as [[_ H] | (sp & _ & _ & _ & Hsp & _)]; [exact H | discriminate Hsp].
Defined.

(** C10, as stated, fails: the confidence 5 of a JSON text is returned as it
    is. *)
Lemma confidence_above_one :
  ~ in_unit_interval
      (confidence (formatForMobile (payload_of_text (jsq "{'confidence':5}")))).
Proof.
  intros (n & q & Hn & Hq & _ & Hle).
  vm_compute in Hn. injection Hn as <-.
  vm_compute in Hq. injection Hq as <-.
  vm_compute in Hle. now apply Hle.
Qed.

Lemma default_confidence_in_unit_interval :
  in_unit_interval (JNum confidence_default).
Proof.
  exists confidence_default, (inject_Z 8 * Qpower (10 # 1) (-1))%Q.
  repeat split; vm_compute; discriminate.
Qed.

(** C10, amended.  The confidence lies in the interval from 0 to 1 (it is
    0.5 on the fallback and 0.8 on the heuristic path and by default) unless
    the text is a JSON document that brings a truthy [confidence] of its
    own, which is returned as it is, whatever its value or type; in
    particular it is 0.8 for every text that is not valid JSON. *)
Theorem confidence_bound (claudeResponse : JSValue) :
  (in_unit_interval (confidence (formatForMobile claudeResponse))
   \/ exists content parsedContent,
        extract_text claudeResponse = Ok content
        /\ JSON_parse content = Ok parsedContent
        /\ get parsedContent (js "confidence")
           = Ok (confidence (formatForMobile claudeResponse))
        /\ ToBoolean (confidence (formatForMobile claudeResponse)) = true)
  /\ (forall e, formatForMobile_body claudeResponse = Throw e ->
                confidence (formatForMobile claudeResponse) = JNum (Dec 5 (-1)))
  /\ (forall text e,
        extract_text claudeResponse = Ok (JStr text) ->
        JSON_parse_string text = Throw e ->
        confidence (formatForMobile claudeResponse) = JNum confidence_default).
Proof.
  repeat split.
  - destruct (formatForMobile_cases claudeResponse)
      as [-> | (content & parsed & Hext & Hparse & Hm)].
    + left. exists (Dec 5 (-1)), (inject_Z 5 * Qpower (10 # 1) (-1))%Q.
      repeat split; vm_compute; discriminate.
    + destruct (merge_inv _ _ Hm) as (sp & df & cs & cf & _ & _ & _ & Hcf & _ & _ & _ & Hr & _).
      rewrite Hr. unfold or_else.
      destruct (ToBoolean cf) eqn:Htruthy;
        [|left; apply default_confidence_in_unit_interval].
      destruct (parse_content_cases _ Hparse) as [Hjson | (text & e & -> & _ & Hheur)].
      * right. exists content, parsed. auto.
      * left. rewrite parseTextResponse_string in Hheur. injection Hheur as <-.
        injection Hcf as <-. apply default_confidence_in_unit_interval.
  - intros e He.
    assert (Hfb : formatForMobile claudeResponse = fallback)
      by (apply fallback_iff_fault; eauto).
    now rewrite Hfb.
  - intros text e Hext Hjson. now rewrite (formatForMobile_heuristic _ Hext Hjson).
Qed.

(** The amended C10 at a plain sentence. *)
Lemma confidence_bound_witness :
  confidence (formatForMobile (payload_of_text (js "All good, nothing to report.")))
  = JNum confidence_default.
Proof.
  destruct (confidence_bound (payload_of_text (js "All good, nothing to report.")))
    as (_ & _ & H).
  apply (H (js "All good, nothing to report.") SyntaxError); reflexivity.
Defined.

(** * The bullet heuristic and the truncation *)

Lemma is_bullet_line_iff (line : jsstring) :
  is_bullet_line line = true
  <-> exists rest,
        line = BULLET :: rest \/ line = HYPHEN :: rest \/ line = STAR :: rest.
Proof.
  split.
  - intros H. destruct (is_bullet_line_inv _ H) as (c & rest & -> & Hc).
    exists rest. destruct Hc as [-> | [-> | ->]]; auto.
  - intros [rest [-> | [-> | ->]]]; reflexivity.
Qed.

Lemma trimStart_idempotent (s : jsstring) : trimStart (trimStart s) = trimStart s.
Proof.
  induction s as [|c s IH]; simpl; [reflexivity|].
  destruct (is_space c) eqn:Hc; [exact IH|]. simpl. now rewrite Hc.
Qed.

(** White space at the end of a bullet line does not reach the point. *)
Example point_of_trailing_space : point_of (js "- A ") = js "A".
Proof. reflexivity. Qed.

(** C8.  A line of the text is a bullet line exactly when it starts with one
    of the three markers; the loop collects one point for each bullet line,
    in the order of the lines; the point is the line with the marker and the
    white space after it stripped (and with no white space left at its
    end); when there is a bullet line, [summary_points] is the first five of
    these points.  On the example text the points are A, B, C and
    [detailed_flow] is the explanatory line. *)
Theorem bullet_heuristic (text : jsstring) :
  (forall line,
     is_bullet_line line = true
     <-> exists rest,
           line = BULLET :: rest \/ line = HYPHEN :: rest \/ line = STAR :: rest)
  /\ fst (scan_lines (text_lines text)) = map point_of (bullet_lines text)
  /\ (forall c rest,
        is_bullet_line (c :: rest) = true ->
        strip_marker (c :: rest) = trimStart rest
        /\ point_of (c :: rest) = trimEnd (trimStart rest))
  /\ (bullet_lines text <> [] ->
      parseTextResponse (JStr text)
      = Ok (heuristic_candidate (firstn 5 (map point_of (bullet_lines text)))
              (heuristic_flow text)))
  /\ parseTextResponse (JStr bullet_example)
     = Ok (heuristic_candidate [js "A"; js "B"; js "C"] explanatory_line)
  /\ summary_points (formatForMobile (payload_of_text bullet_example))
     = JArr [JStr (js "A"); JStr (js "B"); JStr (js "C")]
  /\ detailed_flow (formatForMobile (payload_of_text bullet_example))
     = JStr explanatory_line.
Proof.
  split; [exact is_bullet_line_iff|].
  split; [now rewrite scan_lines_text_lines|].
  split.
  { intros c rest H. unfold point_of, trim.
    now rewrite (strip_marker_bullet _ _ H), trimStart_idempotent. }
  split; [|repeat split].
  intros Hbullets. rewrite parseTextResponse_string. unfold heuristic_points.
  destruct (bullet_lines text); [contradiction | reflexivity].
Qed.

(** C8 at a text of seven bullet lines, of which the first five points are
    kept, and at a line with white space around its point. *)
Lemma bullet_heuristic_witness :
  parseTextResponse (JStr seven_bullets)
  = Ok (heuristic_candidate [js "1"; js "2"; js "3"; js "4"; js "5"]
          (seven_bullets ++ ELLIPSIS))
  /\ point_of (STAR :: js "  x ") = js "x".
Proof.
  split.
  - destruct (bullet_heuristic seven_bullets) as (_ & _ & _ & H & _).
    rewrite H; [reflexivity | discriminate].
  - destruct (bullet_heuristic []) as (_ & _ & H & _).
    destruct (H STAR (js "  x ") eq_refl) as [_ ->]. reflexivity.
Defined.

Lemma filter_nil_false {A} (f : A -> bool) (l : list A) :
  filter f l = [] -> forall x, In x l -> f x = false.
Proof.
  induction l as [|y l IH]; simpl; [contradiction|].
  destruct (f y) eqn:Hy; [discriminate|].
  intros Hnil x [<- | Hin]; auto.
Qed.

Lemma find_long_line (text : jsstring) :
  bullet_lines text = [] ->
  find is_long_line (text_lines text)
  = find (fun line => (20 <? List.length line)%nat) (text_lines text).
Proof.
  intros Hnone.
  assert (Hin : forall line, In line (text_lines text) -> is_bullet_line line = false).
  { intros line Hline. apply (filter_nil_false _ _ Hnone).
    apply filter_In in Hline. tauto. }
  induction (text_lines text) as [|line lines IH]; simpl; [reflexivity|].
  unfold is_long_line at 1. rewrite (Hin line) by now left. simpl.
  destruct (20 <? List.length line)%nat; [reflexivity|].
  apply IH. intros l Hl. apply Hin. now right.
Qed.

Lemma find_none_forallb {A} (f g : A -> bool) (l : list A) :
  (forall x, g x = true -> f x = false) ->
  forallb g l = true -> find f l = None.
Proof.
  intros Hgf. induction l as [|x l IH]; simpl; [reflexivity|].
  rewrite andb_true_iff. intros [Hx H]. rewrite (Hgf x Hx). now apply IH.
Qed.

(** C9, as stated, fails: a single line of 300 letters is not JSON and has no
    bullet, and being longer than 20 units it becomes the detailed flow
    whole, all 300 units of it, not its first 200 followed by "...". *)
Lemma long_line_is_not_truncated :
  List.length one_line_text = 300%nat
  /\ JSON_parse_string one_line_text = Throw SyntaxError
  /\ bullet_lines one_line_text = []
  /\ detailed_flow (formatForMobile (payload_of_text one_line_text))
     = JStr one_line_text
  /\ detailed_flow (formatForMobile (payload_of_text one_line_text))
     <> JStr (substring0 200 one_line_text ++ ELLIPSIS).
Proof.
  repeat split; try (vm_compute; reflexivity).
  intros H. apply (f_equal string_length) in H. vm_compute in H. discriminate H.
Qed.

(** C9, amended.  For a text that is not JSON and has no bullet line, of 300
    units or of any other length, [summary_points] is the single element
    made of the first 50 units of the text followed by "...";
    [detailed_flow] is the first 200 units followed by "..." when no line
    that is not blank is longer than 20 units, and otherwise the first such
    line, trimmed. *)
Theorem truncation (claudeResponse : JSValue) (text : jsstring) (e : JSError) :
  extract_text claudeResponse = Ok (JStr text) ->
  JSON_parse_string text = Throw e ->
  bullet_lines text = [] ->
  summary_points (formatForMobile claudeResponse)
  = JArr [JStr (substring0 50 text ++ ELLIPSIS)]
  /\ (forallb (fun line => (List.length line <=? 20)%nat) (text_lines text) = true ->
      detailed_flow (formatForMobile claudeResponse)
      = JStr (substring0 200 text ++ ELLIPSIS))
  /\ (forall line,
        find (fun line => (20 <? List.length line)%nat) (text_lines text) = Some line ->
        detailed_flow (formatForMobile claudeResponse) = JStr (trim line)).
Proof.
  intros Hext Hjson Hnone.
  rewrite (formatForMobile_heuristic _ Hext Hjson). simpl.
  unfold heuristic_points, heuristic_flow.
  rewrite Hnone, (find_long_line _ Hnone). simpl.
  split; [reflexivity|]. split.
  - intros Hshort.
    rewrite find_none_forallb with (g := fun line => (List.length line <=? 20)%nat);
      [reflexivity | | exact Hshort].
    intros line. rewrite Nat.leb_le, Nat.ltb_ge. auto.
  - now intros line ->.
Qed.

(** The amended C9 at fifteen short lines, 300 units in all. *)
Lemma truncation_witness :
  List.length short_lines_text = 300%nat
  /\ summary_points (formatForMobile (payload_of_text short_lines_text))
     = JArr [JStr (substring0 50 short_lines_text ++ ELLIPSIS)]
  /\ detailed_flow (formatForMobile (payload_of_text short_lines_text))
     = JStr (substring0 200 short_lines_text ++ ELLIPSIS).
Proof.
  split; [reflexivity|].
  destruct (@truncation (payload_of_text short_lines_text) short_lines_text SyntaxError
              eq_refl eq_refl eq_refl) as (Hsp & Hdf & _).
  split; [exact Hsp | apply Hdf; reflexivity].
Defined.

(** * The classification of upstream failures *)

Lemma header_cases (name : jsstring) (r : UpstreamResponse) :
  header name r = JUndefined \/ exists h, header name r = JStr h.
Proof.
  unfold header. destruct (find _ (headers r)) as [[k v]|]; eauto.
Qed.

(** [headers[name]] is the value of the first header of that name, and
    [undefined] when there is none. *)
Lemma header_first (name : jsstring) (r : UpstreamResponse)
    (before after : list (jsstring * jsstring)) (h : jsstring) :
  headers r = before ++ (name, h) :: after ->
  (forall kv, In kv before -> fst kv <> name) ->
  header name r = JStr h.
Proof.
  unfold header. intros -> Hbefore.
  induction before as [|[k v] before IH]; simpl.
  - now rewrite jsstring_eqb_refl.
  - destruct (jsstring_eqb name k) eqn:E.
    + apply jsstring_eqb_eq in E. elim (Hbefore (k, v)); [now left | now symmetry].
    + apply IH. intros kv Hin. apply Hbefore. now right.
Qed.

Lemma header_none (name : jsstring) (r : UpstreamResponse) :
  (forall kv, In kv (headers r) -> fst kv <> name) ->
  header name r = JUndefined.
Proof.
  unfold header. induction (headers r) as [|[k v] hs IH]; intros Hnone; simpl.
  - reflexivity.
  - destruct (jsstring_eqb name k) eqn:E.
    + apply jsstring_eqb_eq in E. elim (Hnone (k, v)); [now left | now symmetry].
    + apply IH. intros kv Hin. apply Hnone. now right.
Qed.

(** The seconds taken from a header value: the integer it starts with, or 60
    when the header is absent or empty. *)
Lemma parseInt_retry_after (h : JSValue) :
  (h = JUndefined \/ exists s, h = JStr s) ->
  parseInt (or_else h (JNum (Dec 60 0)))
  = Ok (match h with
        | JStr (c :: s) => parseInt_string (c :: s)
        | _ => Dec 60 0
        end).
Proof.
  intros [-> | [[|c s] ->]]; reflexivity.
Qed.

Lemma classify_rate_limit (error : Caught.t) (r : UpstreamResponse) :
  Caught.response error = Some r -> status r = 429%Z ->
  classify error
  = ThrownClassified
      {| Classified.code := js "RATE_LIMIT_EXCEEDED";
         Classified.message := js "Rate limit exceeded";
         Classified.retryAfter :=
           Some (match header (js "retry-after") r with
                 | JStr (c :: s) => parseInt_string (c :: s)
                 | _ => Dec 60 0
                 end) |}.
Proof.
  intros Hr Hs. unfold classify. rewrite Hr, Hs. simpl.
  now rewrite parseInt_retry_after by apply header_cases.
Qed.

Lemma classify_status_400 (error : Caught.t) :
  upstream_status error = Some 400%Z ->
  classify error
  = ThrownClassified
      {| Classified.code := js "INVALID_REQUEST";
         Classified.message := js "Invalid request format or parameters";
         Classified.retryAfter := None |}.
Proof.
  unfold upstream_status, classify.
  destruct (Caught.response error) as [r|]; simpl; [|discriminate].
  now intros [= ->].
Qed.

Lemma classify_status_401 (error : Caught.t) :
  upstream_status error = Some 401%Z ->
  classify error
  = ThrownClassified
      {| Classified.code := js "AUTHENTICATION_ERROR";
         Classified.message := js "Authentication failed";
         Classified.retryAfter := None |}.
Proof.
  unfold upstream_status, classify.
  destruct (Caught.response error) as [r|]; simpl; [|discriminate].
  now intros [= ->].
Qed.

(** Without one of the three statuses the [code] decides. *)
Lemma classify_by_code (error : Caught.t) :
  upstream_status error <> Some 429%Z ->
  upstream_status error <> Some 400%Z ->
  upstream_status error <> Some 401%Z ->
  classify error
  = if match Caught.code error with
       | Some c => jsstring_eqb c (js "ECONNABORTED")
       | None => false
       end
    then ThrownClassified
           {| Classified.code := js "TIMEOUT";
              Classified.message := js "Request timeout";
              Classified.retryAfter := None |}
    else ThrownClassified
           {| Classified.code := js "UNKNOWN_ERROR";
              Classified.message := if nonempty (Caught.message error)
                                    then Caught.message error
                                    else js "Unknown error occurred";
              Classified.retryAfter := None |}.
Proof.
  unfold upstream_status, classify.
  destruct (Caught.response error) as [r|]; simpl; [|reflexivity].
  intros H429 H400 H401.
  destruct (Z.eqb_spec (status r) 429) as [E|_]; [now rewrite E in H429|].
  destruct (Z.eqb_spec (status r) 400) as [E|_]; [now rewrite E in H400|].
  destruct (Z.eqb_spec (status r) 401) as [E|_]; [now rewrite E in H401|].
  reflexivity.
Qed.

(** C5.  When the upstream call fails, [callClaude] makes its one request
    and throws the classification of the failure, first match first: status
    429 gives RATE_LIMIT_EXCEEDED with [retryAfter] read by [parseInt] from
    the value of the [retry-after] header of the response, whatever other
    headers the response has, and 60 when it has no such header (or an empty
    one); the value "12" gives 12, as every run of digits gives its integer
    up to the precision of binary64, and a value that does not start with
    an integer gives [NaN]; status 400 gives INVALID_REQUEST; status
    401 gives AUTHENTICATION_ERROR; without these statuses the code
    ECONNABORTED of an aborted connection gives TIMEOUT, and anything else
    gives UNKNOWN_ERROR with the message of the failure, or with "Unknown
    error occurred" when it has none. *)
Theorem upstream_failure_classification
    (CLAUDE_MODEL ANTHROPIC_API_KEY : option jsstring)
    (axios_post : MessagesRequest -> AxiosOutcome)
    (prompt : JSValue) (options : Options) (error : Caught.t) :
  (forall request, axios_post request = Rejected error) ->
  (exists request,
     callClaude CLAUDE_MODEL ANTHROPIC_API_KEY axios_post prompt options
     = (Throw (classify error), [request]))
  /\ (forall r,
        Caught.response error = Some r -> status r = 429%Z ->
        exists n,
          classify error
          = ThrownClassified
              {| Classified.code := js "RATE_LIMIT_EXCEEDED";
                 Classified.message := js "Rate limit exceeded";
                 Classified.retryAfter := Some n |}
          /\ (forall before h after,
                headers r = before ++ (js "retry-after", h) :: after ->
                (forall kv, In kv before -> fst kv <> js "retry-after") ->
                n = match h with
                    | [] => Dec 60 0
                    | _ :: _ => parseInt_string h
                    end)
          /\ ((forall kv, In kv (headers r) -> fst kv <> js "retry-after") ->
              n = Dec 60 0))
  /\ (upstream_status error = Some 400%Z ->
      classify error
      = ThrownClassified
          {| Classified.code := js "INVALID_REQUEST";
             Classified.message := js "Invalid request format or parameters";
             Classified.retryAfter := None |})
  /\ (upstream_status error = Some 401%Z ->
      classify error
      = ThrownClassified
          {| Classified.code := js "AUTHENTICATION_ERROR";
             Classified.message := js "Authentication failed";
             Classified.retryAfter := None |})
  /\ (upstream_status error <> Some 429%Z ->
      upstream_status error <> Some 400%Z ->
      upstream_status error <> Some 401%Z ->
      (Caught.code error = Some (js "ECONNABORTED") ->
       classify error
       = ThrownClassified
           {| Classified.code := js "TIMEOUT";
              Classified.message := js "Request timeout";
              Classified.retryAfter := None |})
      /\ (Caught.code error <> Some (js "ECONNABORTED") ->
          classify error
          = ThrownClassified
              {| Classified.code := js "UNKNOWN_ERROR";
                 Classified.message := if nonempty (Caught.message error)
                                       then Caught.message error
                                       else js "Unknown error occurred";
                 Classified.retryAfter := None |}))
  /\ parseInt_string (js "12") = Dec 12 0
  /\ parseInt_string (js "9007199254740993") = Dec 9007199254740992 0
  /\ parseInt_string (js "Wed, 21 Oct 2015 07:28:00 GMT") = NaN.
Proof.
  intros Hfail. split; [|split; [|split; [|split; [|split]]]].
  - unfold callClaude. rewrite Hfail. eexists. reflexivity.
  - intros r Hr Hs. eexists. split; [exact (classify_rate_limit _ Hr Hs)|].
    split.
    + intros before h after Hh Hbefore.
      rewrite (@header_first _ _ _ _ _ Hh Hbefore). now destruct h.
    + intros Hnone. now rewrite (@header_none _ _ Hnone).
  - apply classify_status_400.
  - apply classify_status_401.
  - intros H429 H400 H401. rewrite (classify_by_code _ H429 H400 H401).
    split.
    + intros ->. reflexivity.
    + intros Hcode. destruct (Caught.code error) as [c|]; [|reflexivity].
      destruct (jsstring_eqb c (js "ECONNABORTED")) eqn:E; [|reflexivity].
      apply jsstring_eqb_eq in E. congruence.
  - vm_compute. repeat split.
Qed.

(** C5 at a 429 whose second header is [retry-after: 12]. *)
Lemma upstream_failure_classification_witness :
  fst (callClaude None None (fun _ => Rejected rate_limited) (JStr (js "hi"))
         (mkOptions JUndefined JUndefined JUndefined))
  = Throw (ThrownClassified
             {| Classified.code := js "RATE_LIMIT_EXCEEDED";
                Classified.message := js "Rate limit exceeded";
                Classified.retryAfter := Some (Dec 12 0) |}).
Proof.
  destruct (@upstream_failure_classification None None
              (fun _ => Rejected rate_limited) (JStr (js "hi"))
              (mkOptions JUndefined JUndefined JUndefined) rate_limited
              (fun _ => eq_refl))
    as ((request & Hcall) & H429 & _).
  rewrite Hcall. simpl fst.
  destruct (H429 _ eq_refl eq_refl) as (n & -> & Hn & _).
  rewrite (Hn [(js "content-type", js "application/json")] (js "12") [] eq_refl).
  - reflexivity.
  - intros kv [<- | []] H. discriminate H.
Defined.

(** * The responses of the endpoint *)

Lemma reported_kind_status (k : ErrorKind) :
  stated_status (reported_kind k) = stated_status k.
Proof. destruct k; reflexivity. Qed.

Lemma reported_kind_known (k : ErrorKind) : reported_kind k <> UNKNOWN_ERROR.
Proof. destruct k; discriminate. Qed.

(** Whatever failure [callClaude] catches, it throws an object of one of its
    five kinds, and the handler answers with the status of that kind. *)
Lemma classified_response (error : Caught.t) :
  exists c k,
    classify error = ThrownClassified c
    /\ Classified.code c = kind_code k
    /\ upstream_kind k
    /\ http_status (error_response (classify error)) = stated_status k
    /\ response_code (error_response (classify error))
       = Some (kind_code (reported_kind k)).
Proof.
  unfold upstream_kind.
  destruct (Caught.response error) as [r|] eqn:Hr.
  - destruct (Z.eq_dec (status r) 429) as [H429|H429].
    { rewrite (classify_rate_limit _ Hr H429).
      eexists. exists RATE_LIMIT_EXCEEDED. repeat split; auto. }
    destruct (Z.eq_dec (status r) 400) as [H400|H400].
    { rewrite classify_status_400 by (unfold upstream_status; now rewrite Hr, <- H400).
      eexists. exists INVALID_REQUEST. repeat split; auto. }
    destruct (Z.eq_dec (status r) 401) as [H401|H401].
    { rewrite classify_status_401 by (unfold upstream_status; now rewrite Hr, <- H401).
      eexists. exists AUTHENTICATION_ERROR. repeat split; auto. }
    rewrite classify_by_code
      by (unfold upstream_status; rewrite Hr; simpl; congruence).
    destruct (match Caught.code error with
              | Some c => jsstring_eqb c (js "ECONNABORTED")
              | None => false
              end).
    + eexists. exists TIMEOUT. repeat split; auto 6.
    + eexists. exists UNKNOWN_ERROR. repeat split; auto 6.
  - rewrite classify_by_code by (unfold upstream_status; rewrite Hr; discriminate).
    destruct (match Caught.code error with
              | Some c => jsstring_eqb c (js "ECONNABORTED")
              | None => false
              end).
    + eexists. exists TIMEOUT. repeat split; auto 6.
    + eexists. exists UNKNOWN_ERROR. repeat split; auto 6.
Qed.

(** C6, as stated, fails: a refused connection is classified UNKNOWN_ERROR,
    and the response to the caller carries the code INTERNAL_ERROR, not the
    kind of the error. *)
Lemma unknown_error_reported_as_internal :
  classify connection_refused
  = ThrownClassified
      {| Classified.code := kind_code UNKNOWN_ERROR;
         Classified.message := js "connect ECONNREFUSED";
         Classified.retryAfter := None |}
  /\ response_code (error_response (classify connection_refused))
     = Some (kind_code INTERNAL_ERROR)
  /\ response_code (error_response (classify connection_refused))
     <> Some (kind_code UNKNOWN_ERROR).
Proof. repeat split. discriminate. Qed.

(** C6, amended.  The response to an upstream failure has the status mapped
    from the kind of the classified error, and carries that kind in its
    [code] field unless the kind is UNKNOWN_ERROR, which is reported under
    the code INTERNAL_ERROR (status 500).  Every error response of the
    handler carries one of the kinds other than UNKNOWN_ERROR together with
    the status mapped from it: 400 for INVALID_PROMPT, PROMPT_TOO_LONG and
    INVALID_REQUEST, 401 for AUTHENTICATION_ERROR, 429 for
    RATE_LIMIT_EXCEEDED, 504 for TIMEOUT, 500 for INTERNAL_ERROR. *)
Theorem error_status_mapping :
  (forall error : Caught.t,
     exists c k,
       classify error = ThrownClassified c
       /\ Classified.code c = kind_code k
       /\ upstream_kind k
       /\ http_status (error_response (classify error)) = stated_status k
       /\ response_code (error_response (classify error))
          = Some (kind_code (reported_kind k)))
  /\ (forall k, reported_kind k = if match k with UNKNOWN_ERROR => true | _ => false end
                                  then INTERNAL_ERROR else k)
  /\ (forall (CLAUDE_MODEL ANTHROPIC_API_KEY : option jsstring)
             (axios_post : MessagesRequest -> AxiosOutcome) (now : jsstring)
             (body : JSValue) (response : HttpResponse) (calls : list MessagesRequest),
        query_handler CLAUDE_MODEL ANTHROPIC_API_KEY axios_post now body
        = Ok (response, calls) ->
        (exists payload,
           response = mkHttp 200 (inr (formatForMobile payload, now)))
        \/ (exists k,
              k <> UNKNOWN_ERROR
              /\ response_code response = Some (kind_code k)
              /\ http_status response = stated_status k)).
Proof.
  split; [exact classified_response|]. split; [intros k; now destruct k|].
  intros CLAUDE_MODEL ANTHROPIC_API_KEY axios_post now body response calls.
  assert (Hthrown : forall error,
            exists k, k <> UNKNOWN_ERROR
                      /\ response_code (error_response (classify error))
                         = Some (kind_code k)
                      /\ http_status (error_response (classify error))
                         = stated_status k).
  { intros error.
    destruct (classified_response error) as (c & k & _ & _ & _ & Hs & Hc).
    exists (reported_kind k).
    rewrite reported_kind_status. auto using reported_kind_known. }
  unfold query_handler, bind.
  destruct (get body (js "prompt")) as [prompt|]; [|discriminate].
  destruct (get body (js "temperature")) as [t|]; [|discriminate].
  destruct (get body (js "max_tokens")) as [m|]; [|discriminate].
  destruct (get body (js "top_p")) as [p|]; [|discriminate].
  destruct (negb (ToBoolean prompt) || negb (is_string prompt)).
  { intros [= <- <-]. right. exists INVALID_PROMPT. repeat split. discriminate. }
  destruct (10000 <? string_length prompt)%Z.
  { intros [= <- <-]. right. exists PROMPT_TOO_LONG. repeat split. discriminate. }
  unfold callClaude.
  destruct (axios_post _) as [response_data|error].
  - destruct (get response_data (js "model")).
    + intros [= <- <-]. left. eauto.
    + intros [= <- <-]. right. apply Hthrown.
  - intros [= <- <-]. right. apply Hthrown.
Qed.

(** The amended C6 at a timeout of the upstream call: status 504, code
    TIMEOUT. *)
Lemma error_status_mapping_witness :
  exists k,
    k <> UNKNOWN_ERROR
    /\ response_code
         (error_json 504 "Request timeout" "TIMEOUT" None) = Some (kind_code k)
    /\ http_status (error_json 504 "Request timeout" "TIMEOUT" None)
       = stated_status k.
Proof.
  destruct error_status_mapping as (_ & _ & H).
  destruct (H None None (fun _ => Rejected timed_out) (js "2025-07-01T00:00:00.000Z")
              (body_of_prompt (JStr (js "hi")))
              (error_json 504 "Request timeout" "TIMEOUT" None)
              [mkRequest (js "claude-3-haiku-20240307") (JNum (Dec 800 0))
                 (JNum (Dec 3 (-1))) (JNum (Dec 9 (-1))) (JStr (js "hi")) None
                 (js "2023-06-01") 30000]
              eq_refl) as [(payload & Hp) | Hk].
  - discriminate Hp.
  - exact Hk.
Defined.

(** * Pre-flight validation *)

Lemma get_ok_any (body : JSValue) (name name' : jsstring) (v : JSValue) :
  get body name = Ok v -> exists v', get body name' = Ok v'.
Proof.
  destruct body; simpl; try discriminate; eauto.
Qed.




(** * More on the runtime functions *)

Lemma trimStart_blank (ws s : jsstring) :
  blank ws -> trimStart (ws ++ s) = trimStart s.
Proof.
  intros Hws. induction Hws as [|c ws Hc Hws IH]; simpl; [reflexivity|].
  now rewrite Hc.
Qed.

Lemma trimStart_nil_blank (s : jsstring) : trimStart s = [] -> blank s.
Proof.
  induction s as [|c s IH]; simpl; [constructor|].
  destruct (is_space c) eqn:Hc; [|discriminate].
  intros H. apply Forall_cons; [exact Hc | exact (IH H)].
Qed.

Lemma trimStart_cons_app (s x : jsstring) (c : N) (t : jsstring) :
  trimStart s = c :: t -> trimStart (s ++ x) = (c :: t) ++ x.
Proof.
  induction s as [|d s IH]; simpl; [discriminate|].
  destruct (is_space d); [exact IH|]. now intros [= -> ->].
Qed.

Lemma trimStart_head (s : jsstring) (c : N) (t : jsstring) :
  trimStart s = c :: t -> is_space c = false.
Proof.
  induction s as [|d s IH]; simpl; [discriminate|].
  destruct (is_space d) eqn:Hd; [exact IH|]. now intros [= <- _].
Qed.

Lemma blank_rev (ws : jsstring) : blank ws -> blank (rev ws).
Proof. apply Forall_rev. Qed.

Lemma trimEnd_blank (s ws : jsstring) : blank ws -> trimEnd (s ++ ws) = trimEnd s.
Proof.
  intros Hws. unfold trimEnd.
  now rewrite rev_app_distr, trimStart_blank by now apply blank_rev.
Qed.

(** White space at the end of a string does not change what [trim] gives. *)
Lemma trim_app_blank (s ws : jsstring) : blank ws -> trim (s ++ ws) = trim s.
Proof.
  intros Hws. unfold trim.
  destruct (trimStart s) as [|c t] eqn:Hs.
  - apply trimStart_nil_blank in Hs.
    assert (Hall : blank (s ++ ws)) by (apply Forall_app; auto).
    rewrite <- (app_nil_r (s ++ ws)), trimStart_blank by exact Hall.
    reflexivity.
  - rewrite (trimStart_cons_app _ ws Hs). now apply trimEnd_blank.
Qed.

Lemma trimStart_keeps_last (s : jsstring) (c : N) :
  is_space c = false -> exists t, trimStart (s ++ [c]) = t ++ [c].
Proof.
  intros Hc. induction s as [|d s IH]; simpl.
  - rewrite Hc. now exists [].
  - destruct (is_space d); [exact IH|]. now exists (d :: s).
Qed.

Lemma trimEnd_keeps_head (c : N) (t : jsstring) :
  is_space c = false -> exists t', trimEnd (c :: t) = c :: t'.
Proof.
  intros Hc. unfold trimEnd. simpl rev.
  destruct (trimStart_keeps_last (rev t) c Hc) as [u ->].
  exists (rev u). now rewrite rev_app_distr.
Qed.

Lemma trimEnd_idempotent (s : jsstring) : trimEnd (trimEnd s) = trimEnd s.
Proof.
  unfold trimEnd. now rewrite rev_involutive, trimStart_idempotent.
Qed.

(** What [trim] gives has no white space left to trim. *)
Lemma trim_idempotent (s : jsstring) : trim (trim s) = trim s.
Proof.
  unfold trim.
  destruct (trimStart s) as [|c t] eqn:Hs; [reflexivity|].
  destruct (trimEnd_keeps_head c t (trimStart_head _ Hs)) as [t' Ht'].
  assert (Hstart : trimStart (trimEnd (c :: t)) = trimEnd (c :: t)).
  { rewrite Ht'. simpl. now rewrite (trimStart_head _ Hs). }
  rewrite Hstart. apply trimEnd_idempotent.
Qed.

Lemma trim_trimStart (s : jsstring) : trim (trimStart s) = trim s.
Proof. unfold trim. now rewrite trimStart_idempotent. Qed.

(** The pieces of [split] are no longer than the string. *)
Lemma split_lengths (sep : N) (s : jsstring) :
  Forall (fun piece => (List.length piece <= List.length s)%nat) (split sep s).
Proof.
  induction s as [|c s IH]; simpl.
  - repeat constructor.
  - destruct (c =? sep)%N.
    + constructor; [simpl; lia|].
      eapply Forall_impl; [|exact IH]. intros piece' Hle; simpl in *; lia.
    + destruct (split sep s) as [|piece pieces].
      * constructor; [simpl; lia | constructor].
      * inversion IH as [|? ? Hpiece Hpieces]; subst.
        constructor; [simpl; lia|].
        eapply Forall_impl; [|exact Hpieces]. intros piece' Hle; simpl in *; lia.
Qed.

(** The first piece starts with the first unit, unless that is the
    separator. *)
Lemma split_head (sep c : N) (rest : jsstring) :
  c <> sep -> exists piece pieces, split sep (c :: rest) = (c :: piece) :: pieces.
Proof.
  intros Hc. simpl. destruct (N.eqb_spec c sep); [contradiction|].
  destruct (split sep rest) as [|piece pieces]; eauto.
Qed.

(** * More on the text heuristic *)

Lemma find_first {A} (f : A -> bool) (before : list A) (x : A) (after : list A) :
  Forall (fun y => f y = false) before -> f x = true ->
  find f (before ++ x :: after) = Some x.
Proof.
  intros Hbefore Hx. induction Hbefore as [|y before Hy _ IH]; simpl.
  - now rewrite Hx.
  - now rewrite Hy.
Qed.

Lemma find_none {A} (f : A -> bool) (l : list A) :
  Forall (fun y => f y = false) l -> find f l = None.
Proof.
  intros Hl. induction Hl as [|y l Hy _ IH]; simpl; [reflexivity|].
  now rewrite Hy.
Qed.

Lemma not_long_line (line : jsstring) :
  is_bullet_line line = true \/ (List.length line <= 20)%nat ->
  is_long_line line = false.
Proof.
  unfold is_long_line. intros [-> | Hlen]; [reflexivity|].
  apply andb_false_iff. right. now apply Nat.ltb_ge.
Qed.

(** X1.  The detailed flow of the heuristic stage is the first line, among
    those that are not blank, that is no bullet line and has more than 20
    units, trimmed; lines before it that are bullets or have 20 units or
    fewer are passed over, and later long lines are ignored.  When there is
    no such line it is the first 200 units of the text followed by "...". *)
Theorem detailed_flow_choice (text : jsstring) :
  (forall before line after,
     text_lines text = before ++ line :: after ->
     Forall (fun l => is_bullet_line l = true \/ (List.length l <= 20)%nat) before ->
     is_bullet_line line = false -> (20 < List.length line)%nat ->
     exists points,
       parseTextResponse (JStr text) = Ok (heuristic_candidate points (trim line)))
  /\ (Forall (fun l => is_bullet_line l = true \/ (List.length l <= 20)%nat)
             (text_lines text) ->
      exists points,
        parseTextResponse (JStr text)
        = Ok (heuristic_candidate points (substring0 200 text ++ ELLIPSIS))).
Proof.
  split.
  - intros before line after Hlines Hbefore Hbullet Hlong.
    exists (heuristic_points text).
    rewrite parseTextResponse_string. unfold heuristic_flow.
    rewrite Hlines, find_first; [reflexivity | |].
    + eapply Forall_impl; [|exact Hbefore]. apply not_long_line.
    + unfold is_long_line. rewrite Hbullet. now apply Nat.ltb_lt.
  - intros Hnone. exists (heuristic_points text).
    rewrite parseTextResponse_string. unfold heuristic_flow.
    rewrite find_none; [reflexivity|].
    eapply Forall_impl; [|exact Hnone]. apply not_long_line.
Qed.

(** X1 at a text whose second line is the first long one. *)
Lemma detailed_flow_choice_witness :
  exists points,
    parseTextResponse (JStr second_line_long)
    = Ok (heuristic_candidate points
            (js "The deployment finished without errors.")).
Proof.
  destruct (detailed_flow_choice second_line_long) as [H _].
  apply (H [js "Short note"]
           (js "  The deployment finished without errors.  ")
           [js "This later line is long as well, but comes second."]).
  - reflexivity.
  - constructor; [right; simpl; lia | constructor].
  - reflexivity.
  - simpl. lia.
Defined.

(** X2.  For every string the heuristic stage returns a candidate whose
    [summary_points] has one element when the text has no bullet line and
    otherwise as many as there are bullet lines, up to five, and whose
    [detailed_flow] is never the empty string; for an argument that is not
    a string it throws a TypeError. *)
Theorem heuristic_shape (text : jsstring) :
  (exists points flow,
     parseTextResponse (JStr text) = Ok (heuristic_candidate points flow)
     /\ List.length points
        = match bullet_lines text with
          | [] => 1%nat
          | _ :: _ => Nat.min 5 (List.length (bullet_lines text))
          end
     /\ flow <> [])
  /\ (forall v, is_string v = false -> parseTextResponse v = Throw TypeError).
Proof.
  split.
  - exists (heuristic_points text), (heuristic_flow text).
    split; [apply parseTextResponse_string|]. split.
    + unfold heuristic_points.
      destruct (bullet_lines text) as [|l ls]; [reflexivity|].
      cbn [map]. rewrite length_firstn. cbn [List.length]. now rewrite length_map.
    + pose proof (heuristic_flow_nonempty text) as H.
      now destruct (heuristic_flow text).
  - intros v Hv. destruct v; try reflexivity. discriminate Hv.
Qed.

(** X2 at a number passed for the text. *)
Lemma heuristic_shape_witness :
  parseTextResponse (JNum (Dec 5 0)) = Throw TypeError.
Proof.
  destruct (heuristic_shape []) as [_ H]. apply H. reflexivity.
Defined.

Lemma Forall_first_n {A} (P : A -> Prop) (n : nat) (l : list A) :
  Forall P l -> Forall P (firstn n l).
Proof.
  intros Hl. revert n. induction Hl as [|x l Hx _ IH]; intros [|n]; simpl;
    constructor; auto.
Qed.

Lemma point_of_trimmed (line : jsstring) : trim (point_of line) = point_of line.
Proof. unfold point_of. apply trim_idempotent. Qed.

(** X3.  The strings the heuristic stage takes from lines are trimmed: when
    the text has a bullet line, no summary point starts or ends with white
    space, and when it has a long line, neither does the detailed flow. *)
Theorem heuristic_strings_trimmed (text : jsstring) :
  exists points flow,
    parseTextResponse (JStr text) = Ok (heuristic_candidate points flow)
    /\ (bullet_lines text <> [] -> Forall (fun p => trim p = p) points)
    /\ (find is_long_line (text_lines text) <> None -> trim flow = flow).
Proof.
  exists (heuristic_points text), (heuristic_flow text).
  split; [apply parseTextResponse_string|]. split.
  - intros Hb. unfold heuristic_points.
    destruct (map point_of (bullet_lines text)) as [|p ps] eqn:Hmap.
    + destruct (bullet_lines text); [contradiction | discriminate].
    + rewrite <- Hmap. apply Forall_first_n, Forall_forall. intros q Hq.
      apply in_map_iff in Hq.
      destruct Hq as (line & <- & _). apply point_of_trimmed.
  - unfold heuristic_flow.
    destruct (find is_long_line (text_lines text)); [|contradiction].
    intros _. apply trim_idempotent.
Qed.

(** X3 at the example of the three bullets. *)
Lemma heuristic_strings_trimmed_witness :
  exists points flow,
    parseTextResponse (JStr bullet_example) = Ok (heuristic_candidate points flow)
    /\ Forall (fun p => trim p = p) points
    /\ trim flow = flow.
Proof.
  destruct (heuristic_strings_trimmed bullet_example) as (points & flow & H & Hp & Hf).
  exists points, flow. split; [exact H|]. split.
  - apply Hp. discriminate.
  - apply Hf. discriminate.
Defined.

(** X4.  White space around the text of a bullet does not reach the point:
    white space at the end of the line (a carriage return before the line
    feed, say) and white space between the marker and the text are both
    dropped. *)
Theorem point_ignores_surrounding_space (c : N) (rest ws : jsstring) :
  is_bullet_line (c :: rest) = true -> blank ws ->
  point_of ((c :: rest) ++ ws) = point_of (c :: rest)
  /\ point_of (c :: ws ++ rest) = point_of (c :: rest).
Proof.
  intros Hb Hws. unfold point_of.
  assert (E0 : strip_marker (c :: rest) = trimStart rest)
    by (apply strip_marker_bullet; exact Hb).
  assert (E1 : strip_marker ((c :: rest) ++ ws) = trimStart (rest ++ ws))
    by (apply (strip_marker_bullet c (rest ++ ws)); exact Hb).
  assert (E2 : strip_marker (c :: ws ++ rest) = trimStart (ws ++ rest))
    by (apply strip_marker_bullet; exact Hb).
  rewrite E0, E1, E2, !trim_trimStart. split.
  - now apply trim_app_blank.
  - unfold trim. now rewrite trimStart_blank.
Qed.

(** X4 at a bullet line that ends with a carriage return. *)
Lemma point_ignores_surrounding_space_witness :
  point_of (js "- done" ++ [13%N]) = point_of (js "- done")
  /\ point_of (HYPHEN :: js "   " ++ js "done") = point_of (js "-done").
Proof.
  destruct (@point_ignores_surrounding_space HYPHEN (js " done") [13%N] eq_refl)
    as [H _]; [repeat constructor|].
  destruct (@point_ignores_surrounding_space HYPHEN (js "done") (js "   ") eq_refl)
    as [_ H']; [repeat constructor|].
  split; [exact H | exact H'].
Defined.

(** * More on the normalizer *)

Lemma firstn_short {A} (n : nat) (l : list A) :
  (List.length l <= n)%nat -> firstn n l = l.
Proof.
  revert n. induction l as [|x l IH]; intros [|n] H; simpl in *;
    try reflexivity; try lia.
  f_equal. apply IH. lia.
Qed.

(** X5.  A short reply still gets the ellipsis: for a text of at most 20
    units that is not JSON and has no bullet line (the empty text
    included), the one summary point and the detailed flow are both the
    whole text followed by "...", though nothing was cut. *)
Theorem short_text_gets_ellipsis (claudeResponse : JSValue) (text : jsstring)
    (e : JSError) :
  extract_text claudeResponse = Ok (JStr text) ->
  JSON_parse_string text = Throw e ->
  bullet_lines text = [] ->
  (List.length text <= 20)%nat ->
  summary_points (formatForMobile claudeResponse) = JArr [JStr (text ++ ELLIPSIS)]
  /\ detailed_flow (formatForMobile claudeResponse) = JStr (text ++ ELLIPSIS).
Proof.
  intros Hext Hjson Hnone Hlen.
  rewrite (formatForMobile_heuristic _ Hext Hjson). simpl.
  unfold heuristic_points, heuristic_flow, substring0.
  rewrite Hnone, (@firstn_short _ 50 text), (@firstn_short _ 200 text) by lia.
  split; [reflexivity|].
  rewrite find_none; [reflexivity|].
  apply Forall_forall. intros line Hin. apply not_long_line. right.
  apply filter_In in Hin. destruct Hin as [Hin _].
  pose proof (split_lengths LF text) as Hall.
  rewrite Forall_forall in Hall. specialize (Hall line Hin). lia.
Qed.

(** X5 at the reply "Done." and at the empty reply. *)
Lemma short_text_gets_ellipsis_witness :
  detailed_flow (formatForMobile (payload_of_text (js "Done."))) = JStr (js "Done....")
  /\ summary_points (formatForMobile (payload_of_text [])) = JArr [JStr (js "...")].
Proof.
  split.
  - destruct (@short_text_gets_ellipsis (payload_of_text (js "Done.")) (js "Done.")
                SyntaxError eq_refl eq_refl eq_refl) as [_ H]; [simpl; lia|].
    exact H.
  - destruct (@short_text_gets_ellipsis (payload_of_text []) [] SyntaxError
                eq_refl eq_refl eq_refl) as [H _]; [simpl; lia|].
    exact H.
Defined.

(** A text is not JSON when its first unit cannot start a JSON value. *)
Lemma JSON_rejects_first_unit (c : N) (rest : jsstring) :
  idle_step (PValue []) c = None ->
  JSON_parse_string (c :: rest) = Throw SyntaxError.
Proof.
  intros H. unfold JSON_parse_string. rewrite run_cons.
  change (step (LIdle, PValue []) c) with (idle_step (PValue []) c).
  now rewrite H.
Qed.

(** A hyphen starts a JSON number only when a digit follows. *)
Lemma JSON_rejects_hyphen (rest : jsstring) :
  match rest with
  | d :: _ => is_digit d = false
  | [] => True
  end ->
  JSON_parse_string (HYPHEN :: rest) = Throw SyntaxError.
Proof.
  intros H. unfold JSON_parse_string. rewrite run_cons.
  change (step (LIdle, PValue []) HYPHEN)
    with (Some (LNum (mkNum true 0 0 false 0 NMinus), PValue [])).
  cbv iota. destruct rest as [|d rest]; [reflexivity|].
  rewrite run_cons. unfold step, numlit_step. cbn [phase numlit_complete].
  destruct (N.eqb_spec d 48) as [-> | _]; [discriminate H|].
  now rewrite H.
Qed.

Lemma marker_text_has_bullet_line (c : N) (rest : jsstring) :
  is_bullet_line (c :: rest) = true -> bullet_lines (c :: rest) <> [].
Proof.
  intros Hb. unfold bullet_lines.
  assert (Hc : c <> LF).
  { destruct (is_bullet_line_inv _ Hb) as (c' & rest' & [= <- <-] & Hc').
    destruct Hc' as [-> | [-> | ->]]; discriminate. }
  destruct (split_head rest Hc) as (piece & pieces & ->).
  simpl filter.
  assert (Hb' : is_bullet_line (c :: piece) = true) by exact Hb.
  rewrite Hb'. discriminate.
Qed.

(** X6.  JSON is tried first, but a bullet list is never taken for JSON: a
    text that starts with the bullet or the asterisk, or with a hyphen that
    no digit follows, takes the heuristic path, so its summary points are
    the first five bullet points, its confidence is 0.8 and it has no code
    snippets. *)
Theorem bullet_text_is_not_JSON (claudeResponse : JSValue) (c : N) (rest : jsstring) :
  extract_text claudeResponse = Ok (JStr (c :: rest)) ->
  c = BULLET \/ c = STAR
  \/ (c = HYPHEN /\ match rest with
                    | d :: _ => is_digit d = false
                    | [] => True
                    end) ->
  formatForMobile claudeResponse
  = {| summary_points :=
         JArr (map JStr (firstn 5 (map point_of (bullet_lines (c :: rest)))));
       detailed_flow := JStr (heuristic_flow (c :: rest));
       code_snippets := Some JUndefined;
       confidence := JNum confidence_default;
       mobile_optimized := true |}.
Proof.
  intros Hext Hc.
  assert (Hjson : JSON_parse_string (c :: rest) = Throw SyntaxError).
  { destruct Hc as [-> | [-> | [-> Hd]]].
    - now apply JSON_rejects_first_unit.
    - now apply JSON_rejects_first_unit.
    - now apply JSON_rejects_hyphen. }
  assert (Hb : is_bullet_line (c :: rest) = true)
    by (destruct Hc as [-> | [-> | [-> _]]]; reflexivity).
  rewrite (formatForMobile_heuristic _ Hext Hjson). unfold heuristic_points.
  pose proof (marker_text_has_bullet_line _ _ Hb) as Hne.
  destruct (bullet_lines (c :: rest)); [contradiction | reflexivity].
Qed.

(** X6 at a list of two hyphen bullets. *)
Lemma bullet_text_is_not_JSON_witness :
  summary_points (formatForMobile (payload_of_text two_hyphen_bullets))
  = JArr [JStr (js "first"); JStr (js "second")].
Proof.
  rewrite (@bullet_text_is_not_JSON (payload_of_text two_hyphen_bullets)
             HYPHEN (tl two_hyphen_bullets) eq_refl).
  - reflexivity.
  - right. right. split; reflexivity.
Defined.

Lemma or_else_truthy (v d : JSValue) :
  ToBoolean d = true -> ToBoolean (or_else v d) = true.
Proof.
  intros Hd. unfold or_else. now destruct (ToBoolean v) eqn:Hv.
Qed.

(** X7.  Whatever the payload, the three fields the client reads are there:
    [summary_points], [detailed_flow] and [confidence] of the result are
    never [undefined], [null], [false], 0, [NaN] or the empty string. *)
Theorem fields_never_missing (claudeResponse : JSValue) :
  ToBoolean (summary_points (formatForMobile claudeResponse)) = true
  /\ ToBoolean (detailed_flow (formatForMobile claudeResponse)) = true
  /\ ToBoolean (confidence (formatForMobile claudeResponse)) = true.
Proof.
  destruct (formatForMobile_cases claudeResponse)
    as [-> | (content & parsed & _ & _ & Hm)]; [repeat split|].
  destruct (merge_inv _ _ Hm)
    as (sp & df & cs & cf & _ & _ & _ & _ & Hsp & Hdf & _ & Hcf & _).
  rewrite Hsp, Hcf. repeat split; try (now apply or_else_truthy).
  destruct (ToBoolean df) eqn:Htruthy; [now rewrite Hdf|].
  destruct content; try discriminate Hdf.
  injection Hdf as <-. simpl. apply nonempty_app_ELLIPSIS.
Qed.

(** X8.  Code snippets are never made up: the result has no [code_snippets]
    key (the fallback), or an [undefined] one, or the value that the JSON
    object in the text holds under that key. *)
Theorem code_snippets_never_fabricated (claudeResponse : JSValue) :
  formatForMobile claudeResponse = fallback
  \/ code_snippets (formatForMobile claudeResponse) = Some JUndefined
  \/ exists content props v,
       extract_text claudeResponse = Ok content
       /\ JSON_parse content = Ok (JObj props)
       /\ lookup (js "code_snippets") props = Some v
       /\ code_snippets (formatForMobile claudeResponse) = Some v.
Proof.
  destruct (formatForMobile_cases claudeResponse)
    as [Hfb | (content & parsed & Hext & Hparse & Hm)]; [now left|].
  right.
  destruct (merge_inv _ _ Hm)
    as (sp & df & cs & cf & _ & _ & Hcs & _ & _ & _ & Hr & _).
  rewrite Hr.
  destruct (parse_content_cases _ Hparse) as [Hjson | (text & e & -> & _ & Hheur)].
  - destruct parsed; simpl in Hcs; try discriminate Hcs;
      try (injection Hcs as <-; now left).
    destruct (lookup (js "code_snippets") props) as [v|] eqn:Hlook;
      injection Hcs as <-; [|now left].
    right. exists content, props, v. auto.
  - rewrite parseTextResponse_string in Hheur. injection Hheur as <-.
    injection Hcs as <-. now left.
Qed.

(** X9.  A text that is valid JSON but no object (a number, a string, a
    boolean or a list) gives the record of the defaults alone: the one
    point "Response received", the start of the text followed by "...",
    the confidence 0.8, no code snippets. *)
Theorem non_object_document_gets_defaults (claudeResponse : JSValue)
    (text : jsstring) (v : JSValue) :
  extract_text claudeResponse = Ok (JStr text) ->
  JSON_parse_string text = Ok v ->
  v <> JNull ->
  (forall props, v <> JObj props) ->
  formatForMobile claudeResponse = all_defaults text.
Proof.
  intros Hext Hjson Hnull Hobj.
  destruct (formatForMobile_json _ Hext Hjson Hnull)
    as (sp & df & cs & cf & Hsp & Hdf & Hcs & Hcf & ->).
  pose proof (JSON_parse_string_defined _ Hjson) as Hdef.
  destruct v; try contradiction; simpl in Hsp, Hdf, Hcs, Hcf;
    try (injection Hsp as <-; injection Hdf as <-; injection Hcs as <-;
         injection Hcf as <-; reflexivity).
  now elim (Hobj props).
Qed.

(** X9 at the text [-5], which is a bullet line and a JSON number. *)
Lemma non_object_document_gets_defaults_witness :
  formatForMobile (payload_of_text (js "-5")) = all_defaults (js "-5").
Proof.
  apply (@non_object_document_gets_defaults (payload_of_text (js "-5")) (js "-5")
           (JNum (Dec (-5) 0)) eq_refl eq_refl); discriminate.
Defined.

(** X10.  Only the text of the first content block is read: the other blocks
    and the other fields of the payload change nothing.  A payload without
    [content], or with an empty list of blocks, gives the fallback. *)
Theorem first_block_only (props : list (jsstring * JSValue)) :
  (forall block rest,
     lookup (js "content") props = Some (JArr (block :: rest)) ->
     formatForMobile (JObj props)
     = formatForMobile (JObj [(js "content", JArr [block])]))
  /\ (lookup (js "content") props = None
      \/ lookup (js "content") props = Some (JArr []) ->
      formatForMobile (JObj props) = fallback).
Proof.
  split.
  - intros block rest Hlook.
    unfold formatForMobile, formatForMobile_body, extract_text.
    simpl get at 1 3. now rewrite Hlook.
  - intros [Hlook | Hlook];
      unfold formatForMobile, formatForMobile_body, extract_text;
      simpl get at 1; now rewrite Hlook.
Qed.

(** X10 at a payload with two blocks and other fields. *)
Lemma first_block_only_witness :
  formatForMobile two_block_payload = formatForMobile (payload_of_text (js "First."))
  /\ formatForMobile (JObj [(js "content", JArr [])]) = fallback.
Proof.
  destruct (first_block_only
              [ (js "id", JStr (js "msg_01"));
                (js "model", JStr (js "claude-3-haiku-20240307"));
                (js "content",
                 JArr [ JObj [ (js "type", JStr (js "text"));
                               (js "text", JStr (js "First.")) ];
                        JObj [ (js "type", JStr (js "text"));
                               (js "text", JStr (js "Second.")) ] ]);
                (js "stop_reason", JStr (js "end_turn")) ]) as [H _].
  destruct (first_block_only [(js "content", JArr [])]) as [_ H'].
  split.
  - exact (H _ _ eq_refl).
  - apply H'. now right.
Defined.

(** X11 at a document with six points: all six come back. *)
Lemma formatForMobile_summary_document_witness :
  summary_points
    (formatForMobile
       (payload_of_text
          (summary_document [js "a"; js "b"; js "c"; js "d"; js "e"; js "f"]
             (js "Six points."))))
  = JArr (map JStr [js "a"; js "b"; js "c"; js "d"; js "e"; js "f"]).
Proof.
  rewrite (@formatForMobile_summary_document
             [js "a"; js "b"; js "c"; js "d"; js "e"; js "f"] (js "Six points.")).
  - reflexivity.
  - repeat constructor; unfold plain; simpl; lia || discriminate.
  - repeat constructor; unfold plain; simpl; lia || discriminate.
  - discriminate.
Defined.

(** * More on the endpoint *)

Lemma with_default_number (v : JSValue) (n n' : number) :
  with_default (with_default v (JNum n)) (JNum n') = with_default v (JNum n).
Proof. now destruct v. Qed.

(** What the handler does with a prompt that passes the validation. *)
Lemma query_handler_accepted
    (CLAUDE_MODEL ANTHROPIC_API_KEY : option jsstring)
    (axios_post : MessagesRequest -> AxiosOutcome) (now : jsstring)
    (body : JSValue) (text : jsstring) :
  get body (js "prompt") = Ok (JStr text) ->
  text <> [] ->
  (Z.of_nat (List.length text) <= 10000)%Z ->
  exists t m p,
    get body (js "temperature") = Ok t
    /\ get body (js "max_tokens") = Ok m
    /\ get body (js "top_p") = Ok p
    /\ query_handler CLAUDE_MODEL ANTHROPIC_API_KEY axios_post now body
       = let request :=
           mkRequest (model_name CLAUDE_MODEL)
             (with_default m (JNum (Dec 800 0)))
             (with_default t (JNum (Dec 3 (-1))))
             (with_default p (JNum (Dec 9 (-1))))
             (JStr text) ANTHROPIC_API_KEY (js "2023-06-01") 30000 in
         Ok (match fst (callClaude CLAUDE_MODEL ANTHROPIC_API_KEY axios_post
                          (JStr text)
                          (mkOptions (with_default t (JNum (Dec 3 (-1))))
                             (with_default m (JNum (Dec 800 0)))
                             (with_default p (JNum (Dec 9 (-1)))))) with
             | Ok response => mkHttp 200 (inr (formatForMobile response, now))
             | Throw error => error_response error
             end, [request]).
Proof.
  intros Hprompt Hne Hlen.
  destruct (get_ok_any body (js "prompt") (js "temperature") Hprompt) as [t Ht].
  destruct (get_ok_any body (js "prompt") (js "max_tokens") Hprompt) as [m Hm].
  destruct (get_ok_any body (js "prompt") (js "top_p") Hprompt) as [p Hp].
  exists t, m, p. repeat (split; [assumption|]).
  unfold query_handler, bind. rewrite Hprompt, Ht, Hm, Hp.
  destruct text as [|c text]; [contradiction|].
  cbn [ToBoolean is_string negb orb string_length].
  apply Z.ltb_ge in Hlen. rewrite Hlen.
  unfold callClaude. cbn [opt_temperature opt_max_tokens opt_top_p fst].
  rewrite !with_default_number. reflexivity.
Qed.

(** X12.  A prompt passes the validation when it is a string of 1 to 10,000
    units, the bound included and white space counting like any other unit;
    the handler then sends exactly one request upstream, which carries the
    prompt unchanged, the API key of the environment, the version
    2023-06-01, the timeout of 30,000 milliseconds, and the model named by
    the environment, or claude-3-haiku-20240307 when it names none. *)
Theorem accepted_prompt_one_request
    (CLAUDE_MODEL ANTHROPIC_API_KEY : option jsstring)
    (axios_post : MessagesRequest -> AxiosOutcome) (now : jsstring)
    (body : JSValue) (text : jsstring) :
  get body (js "prompt") = Ok (JStr text) ->
  text <> [] ->
  (Z.of_nat (List.length text) <= 10000)%Z ->
  exists response request,
    query_handler CLAUDE_MODEL ANTHROPIC_API_KEY axios_post now body
    = Ok (response, [request])
    /\ content request = JStr text
    /\ api_key request = ANTHROPIC_API_KEY
    /\ anthropic_version request = js "2023-06-01"
    /\ timeout request = 30000%Z
    /\ (CLAUDE_MODEL = None \/ CLAUDE_MODEL = Some [] ->
        model request = js "claude-3-haiku-20240307")
    /\ (forall m, CLAUDE_MODEL = Some m -> m <> [] -> model request = m).
Proof.
  intros Hprompt Hne Hlen.
  destruct (query_handler_accepted CLAUDE_MODEL ANTHROPIC_API_KEY axios_post now
              body Hprompt Hne Hlen) as (t & m & p & _ & _ & _ & ->).
  cbv zeta. eexists. eexists. split; [reflexivity|]. cbn [content api_key
    anthropic_version timeout model]. repeat split.
  - intros [-> | ->]; reflexivity.
  - intros m' -> Hm'. destruct m'; [contradiction | reflexivity].
Qed.

(** X12 at a prompt of exactly 10,000 units, and at one of three spaces. *)
Lemma accepted_prompt_one_request_witness :
  (exists response request,
     query_handler None None (fun _ => Rejected timed_out) [] 
       (body_of_prompt (JStr limit_prompt))
     = Ok (response, [request])
     /\ content request = JStr limit_prompt)
  /\ (exists response request,
        query_handler None None (fun _ => Rejected timed_out) []
          (body_of_prompt (JStr (js "   ")))
        = Ok (response, [request])
        /\ content request = JStr (js "   ")).
Proof.
  split.
  - destruct (@accepted_prompt_one_request None None (fun _ => Rejected timed_out) []
                (body_of_prompt (JStr limit_prompt)) limit_prompt eq_refl)
      as (response & request & H & Hc & _).
    + discriminate.
    + vm_compute. discriminate.
    + exists response, request. split; assumption.
  - destruct (@accepted_prompt_one_request None None (fun _ => Rejected timed_out) []
                (body_of_prompt (JStr (js "   "))) (js "   ") eq_refl)
      as (response & request & H & Hc & _).
    + discriminate.
    + vm_compute. discriminate.
    + exists response, request. split; assumption.
Defined.

(** X13.  The sampling parameters of the request are those of the body, each
    replaced by its default only when the body does not have it: 0.3 for
    [temperature], 800 for [max_tokens] (the default 1500 of [callClaude]
    never applies to a request of the handler), 0.9 for [top_p].  A value
    that is there, [null] included, goes upstream as it is. *)
Theorem sampling_parameters_passed
    (CLAUDE_MODEL ANTHROPIC_API_KEY : option jsstring)
    (axios_post : MessagesRequest -> AxiosOutcome) (now : jsstring)
    (body : JSValue) (text : jsstring) :
  get body (js "prompt") = Ok (JStr text) ->
  text <> [] ->
  (Z.of_nat (List.length text) <= 10000)%Z ->
  exists response request t m p,
    query_handler CLAUDE_MODEL ANTHROPIC_API_KEY axios_post now body
    = Ok (response, [request])
    /\ get body (js "temperature") = Ok t
    /\ get body (js "max_tokens") = Ok m
    /\ get body (js "top_p") = Ok p
    /\ (t = JUndefined -> temperature request = JNum (Dec 3 (-1)))
    /\ (t <> JUndefined -> temperature request = t)
    /\ (m = JUndefined -> max_tokens request = JNum (Dec 800 0))
    /\ (m <> JUndefined -> max_tokens request = m)
    /\ (p = JUndefined -> top_p request = JNum (Dec 9 (-1)))
    /\ (p <> JUndefined -> top_p request = p).
Proof.
  intros Hprompt Hne Hlen.
  destruct (query_handler_accepted CLAUDE_MODEL ANTHROPIC_API_KEY axios_post now
              body Hprompt Hne Hlen) as (t & m & p & Ht & Hm & Hp & ->).
  cbv zeta. eexists. eexists. exists t, m, p.
  split; [reflexivity|]. repeat (split; [assumption|]).
  cbn [temperature max_tokens top_p].
  assert (Hd : forall v d, (v = JUndefined -> with_default v d = d)
                           /\ (v <> JUndefined -> with_default v d = v)).
  { intros v d. split; [now intros -> | now destruct v]. }
  repeat split; apply Hd.
Qed.

(** X13 at a body that sets [max_tokens] to [null] and nothing else. *)
Lemma sampling_parameters_passed_witness :
  exists response request,
    query_handler None None (fun _ => Rejected timed_out) []
      (JObj [(js "prompt", JStr (js "hi")); (js "max_tokens", JNull)])
    = Ok (response, [request])
    /\ max_tokens request = JNull
    /\ temperature request = JNum (Dec 3 (-1)).
Proof.
  destruct (@sampling_parameters_passed None None (fun _ => Rejected timed_out) []
              (JObj [(js "prompt", JStr (js "hi")); (js "max_tokens", JNull)])
              (js "hi") eq_refl)
    as (response & request & t & m & p & H & Ht & Hm & _ & Ht1 & _ & _ & Hm2 & _).
  - discriminate.
  - vm_compute. discriminate.
  - exists response, request. split; [exact H|].
    injection Ht as <-. injection Hm as <-. split.
    + apply Hm2. discriminate.
    + now apply Ht1.
Defined.

(** What the handler answers to a thrown object of the rate-limit kind. *)
Lemma error_response_rate_limit (message : jsstring) (n : number) :
  error_response
    (ThrownClassified
       {| Classified.code := js "RATE_LIMIT_EXCEEDED";
          Classified.message := message;
          Classified.retryAfter := Some n |})
  = error_json 429 "Rate limit exceeded. Please try again later."
      "RATE_LIMIT_EXCEEDED"
      (Some (if ToBoolean (JNum n) then n else Dec 60 0)).
Proof. reflexivity. Qed.

(** X14.  The seconds a client is told to wait after an upstream 429: what
    [parseInt] reads from the value of the [retry-after] header of the
    response, whatever other headers there are, when that is a number other
    than 0 and [NaN], and 60 in every other case (no such header, an empty
    one, one that does not start with an integer, such as a date, or one
    that names 0).  What [parseInt] reads is the integer the value starts
    with as binary64 holds it: 12 for "12", the value 1e23 for a run of 23
    nines.  The [retryAfter] of the response is never 0 and never [NaN]. *)
Theorem retry_after_reported (error : Caught.t) (r : UpstreamResponse) :
  Caught.response error = Some r -> status r = 429%Z ->
  exists n,
    error_response (classify error)
    = error_json 429 "Rate limit exceeded. Please try again later."
        "RATE_LIMIT_EXCEEDED" (Some n)
    /\ ToBoolean (JNum n) = true
    /\ ((forall kv, In kv (headers r) -> fst kv <> js "retry-after") ->
        n = Dec 60 0)
    /\ (forall before h after,
          headers r = before ++ (js "retry-after", h) :: after ->
          (forall kv, In kv before -> fst kv <> js "retry-after") ->
          n = if ToBoolean (JNum (parseInt_string h)) then parseInt_string h
              else Dec 60 0).
Proof.
  intros Hr Hs. rewrite (classify_rate_limit _ Hr Hs), error_response_rate_limit.
  eexists. split; [reflexivity|].
  assert (H60 : ToBoolean (JNum (Dec 60 0)) = true) by reflexivity.
  split; [|split].
  - destruct (header_cases (js "retry-after") r) as [-> | [[|c s] ->]];
      try exact H60.
    now destruct (ToBoolean (JNum (parseInt_string (c :: s)))) eqn:Hb.
  - intros Hnone. now rewrite (@header_none _ _ Hnone).
  - intros before h after Hh Hbefore.
    rewrite (@header_first _ _ _ _ _ Hh Hbefore). now destruct h.
Qed.

(** X14 at a header that holds a date, at one that names 0 seconds, and at
    one of 23 nines that follows another header: the client is told 60, 60
    and 1e23. *)
Lemma retry_after_reported_witness :
  error_response (classify rate_limited_until_date)
  = error_json 429 "Rate limit exceeded. Please try again later."
      "RATE_LIMIT_EXCEEDED" (Some (Dec 60 0))
  /\ error_response (classify rate_limited_zero)
     = error_json 429 "Rate limit exceeded. Please try again later."
         "RATE_LIMIT_EXCEEDED" (Some (Dec 60 0))
  /\ error_response (classify rate_limited_long)
     = error_json 429 "Rate limit exceeded. Please try again later."
         "RATE_LIMIT_EXCEEDED" (Some (Dec (10 ^ 23) 0)).
Proof.
  split; [|split].
  - destruct (@retry_after_reported rate_limited_until_date _ eq_refl eq_refl)
      as (n & H & _ & _ & Hn).
    rewrite H. rewrite (Hn [] _ [] eq_refl); [reflexivity|].
    intros kv [].
  - destruct (@retry_after_reported rate_limited_zero _ eq_refl eq_refl)
      as (n & H & _ & _ & Hn).
    rewrite H. rewrite (Hn [] _ [] eq_refl); [reflexivity|].
    intros kv [].
  - destruct (@retry_after_reported rate_limited_long _ eq_refl eq_refl)
      as (n & H & _ & _ & Hn).
    rewrite H.
    rewrite (Hn [(js "content-type", js "application/json")] _ [] eq_refl).
    + vm_compute. reflexivity.
    + intros kv [<- | []] Hk. discriminate Hk.
Defined.

(** X15.  The response to a failed upstream call depends on the status and
    the headers of the upstream answer and on the code of the error, and on
    nothing else: the message of the error, which can name hosts and
    addresses, and the body of the upstream answer have no part in it. *)
Theorem failure_detail_not_exposed (e1 e2 : Caught.t) :
  option_map status (Caught.response e1) = option_map status (Caught.response e2) ->
  option_map headers (Caught.response e1) = option_map headers (Caught.response e2) ->
  Caught.code e1 = Caught.code e2 ->
  error_response (classify e1) = error_response (classify e2).
Proof.
  destruct e1 as [[[s1 h1 d1]|] c1 m1], e2 as [[[s2 h2 d2]|] c2 m2];
    simpl; intros Hs Hh Hc; try discriminate; subst c2.
  - injection Hs as ->. injection Hh as ->.
    unfold classify, header; simpl.
    destruct (s2 =? 429)%Z; [reflexivity|].
    destruct (s2 =? 400)%Z; [reflexivity|].
    destruct (s2 =? 401)%Z; [reflexivity|].
    destruct (match c1 with Some c => jsstring_eqb c (js "ECONNABORTED") | None => false end);
      reflexivity.
  - unfold classify; simpl.
    destruct (match c1 with Some c => jsstring_eqb c (js "ECONNABORTED") | None => false end);
      reflexivity.
Qed.

(** X15 at two refused connections whose messages differ. *)
Lemma failure_detail_not_exposed_witness :
  error_response (classify connection_refused_at)
  = error_response (classify connection_refused).
Proof.
  apply (@failure_detail_not_exposed connection_refused_at connection_refused);
    reflexivity.
Defined.

(** X16.  When the upstream call resolves, the handler answers 200 with the
    normalized payload and the time, whatever the payload is, unless the
    payload is [undefined] or [null]: reading its [model] for the log line
    then throws inside [callClaude], and the answer is 500 with the code
    INTERNAL_ERROR.  One request has been sent in both cases. *)
Theorem resolved_call_response
    (CLAUDE_MODEL ANTHROPIC_API_KEY : option jsstring)
    (axios_post : MessagesRequest -> AxiosOutcome) (now : jsstring)
    (body : JSValue) (text : jsstring) (payload : JSValue) :
  get body (js "prompt") = Ok (JStr text) ->
  text <> [] ->
  (Z.of_nat (List.length text) <= 10000)%Z ->
  (forall request, axios_post request = Resolved payload) ->
  exists request,
    query_handler CLAUDE_MODEL ANTHROPIC_API_KEY axios_post now body
    = Ok (match payload with
          | JUndefined | JNull =>
              error_json 500 "Internal server error" "INTERNAL_ERROR" None
          | _ => mkHttp 200 (inr (formatForMobile payload, now))
          end, [request]).
Proof.
  intros Hprompt Hne Hlen Hpost.
  destruct (query_handler_accepted CLAUDE_MODEL ANTHROPIC_API_KEY axios_post now
              body Hprompt Hne Hlen) as (t & m & p & _ & _ & _ & ->).
  cbv zeta. eexists. f_equal. f_equal.
  unfold callClaude. rewrite Hpost. now destruct payload.
Qed.

(** X16 at a payload that is a bare string: the answer is a 200 that carries
    the fallback record. *)
Lemma resolved_call_response_witness :
  exists request,
    query_handler None None (fun _ => Resolved (JStr (js "Bad Gateway")))
      (js "2025-07-01T00:00:00.000Z") (body_of_prompt (JStr (js "hi")))
    = Ok (mkHttp 200 (inr (fallback, js "2025-07-01T00:00:00.000Z")), [request]).
Proof.
  destruct (@resolved_call_response None None
              (fun _ => Resolved (JStr (js "Bad Gateway")))
              (js "2025-07-01T00:00:00.000Z") (body_of_prompt (JStr (js "hi")))
              (js "hi") (JStr (js "Bad Gateway")) eq_refl)
    as (request & H).
  - discriminate.
  - vm_compute. discriminate.
  - reflexivity.
  - exists request. exact H.
Defined.

(** X17.  The handler throws, instead of answering, exactly when the request
    body is [undefined] or [null]: the destructuring of its first line is
    outside the [try]. *)
Theorem handler_throws_iff_no_body
    (CLAUDE_MODEL ANTHROPIC_API_KEY : option jsstring)
    (axios_post : MessagesRequest -> AxiosOutcome) (now : jsstring)
    (body : JSValue) :
  (exists e, query_handler CLAUDE_MODEL ANTHROPIC_API_KEY axios_post now body
             = Throw e)
  <-> (body = JUndefined \/ body = JNull).
Proof.
  split.
  - intros [e He].
    destruct body; auto; exfalso; revert He;
      unfold query_handler, bind;
      match goal with
      | |- context [get ?b (js "prompt")] =>
          assert (Hb : b <> JUndefined) by discriminate;
          assert (Hb' : b <> JNull) by discriminate;
          destruct (get_ok (js "prompt") Hb Hb') as [x ->];
          destruct (get_ok (js "temperature") Hb Hb') as [t ->];
          destruct (get_ok (js "max_tokens") Hb Hb') as [m ->];
          destruct (get_ok (js "top_p") Hb Hb') as [p ->]
      end;
      destruct (negb (ToBoolean x) || negb (is_string x)); try discriminate;
      destruct (10000 <? string_length x)%Z; try discriminate;
      destruct (callClaude _ _ _ _ _); discriminate.
  - intros [-> | ->]; exists TypeError; reflexivity.
Qed.

(** X18.  Every answer of the handler has one of six statuses, has status
    200 exactly when it carries a normalized record, and has been preceded
    by at most one request upstream. *)
Theorem handler_answers
    (CLAUDE_MODEL ANTHROPIC_API_KEY : option jsstring)
    (axios_post : MessagesRequest -> AxiosOutcome) (now : jsstring)
    (body : JSValue) (response : HttpResponse) (calls : list MessagesRequest) :
  query_handler CLAUDE_MODEL ANTHROPIC_API_KEY axios_post now body
  = Ok (response, calls) ->
  In (http_status response) [200; 400; 401; 429; 500; 504]%Z
  /\ (http_status response = 200%Z
      <-> exists record, http_body response = inr (record, now))
  /\ (List.length calls <= 1)%nat.
Proof.
  unfold query_handler, bind.
  destruct (get body (js "prompt")) as [x|]; [|discriminate].
  destruct (get body (js "temperature")) as [t|]; [|discriminate].
  destruct (get body (js "max_tokens")) as [m|]; [|discriminate].
  destruct (get body (js "top_p")) as [p|]; [|discriminate].
  assert (Herr : forall s e c r,
             In s [400; 401; 429; 500; 504]%Z ->
             In (http_status (error_json s e c r)) [200; 400; 401; 429; 500; 504]%Z
             /\ (http_status (error_json s e c r) = 200%Z
                 <-> exists record, http_body (error_json s e c r) = inr (record, now))).
  { intros s e c r Hin. simpl http_status. split; [now right|]. split.
    - intros ->. simpl in Hin. intuition discriminate.
    - intros [record H]. discriminate. }
  destruct (negb (ToBoolean x) || negb (is_string x)).
  { intros [= <- <-]. split; [|split]; [apply Herr | apply Herr | ]; simpl; auto. }
  destruct (10000 <? string_length x)%Z.
  { intros [= <- <-]. split; [|split]; [apply Herr | apply Herr | ]; simpl; auto. }
  unfold callClaude.
  set (request := mkRequest _ _ _ _ _ _ _ _).
  assert (Hthrown : forall error,
             exists s e c r, error_response (classify error) = error_json s e c r
                             /\ In s [400; 401; 429; 500; 504]%Z).
  { intros error.
    destruct (classified_response error) as (c & k & -> & Hc & Hk & _).
    destruct c as [code message retryAfter]. simpl in Hc. subst code.
    destruct Hk as [-> | [-> | [-> | [-> | ->]]]];
      do 4 eexists; (split; [reflexivity | simpl; auto 10]). }
  destruct (axios_post request) as [payload|error].
  - destruct (get payload (js "model")).
    + intros [= <- <-]. simpl. split; [auto|]. split; [|auto].
      split; [eauto | reflexivity].
    + intros [= <- <-].
      match goal with
      | |- context [error_response (classify ?caught)] =>
          destruct (Hthrown caught) as (st & msg & cd & ra & -> & Hin)
      end.
      split; [|split]; [now apply Herr | now apply Herr | simpl; auto].
  - intros [= <- <-].
    destruct (Hthrown error) as (st & msg & cd & ra & -> & Hin).
    split; [|split]; [now apply Herr | now apply Herr | simpl; auto].
Qed.

(** X18 at a request whose upstream call is refused. *)
Lemma handler_answers_witness :
  In (http_status (error_json 500 "Internal server error" "INTERNAL_ERROR" None))
     [200; 400; 401; 429; 500; 504]%Z.
Proof.
  apply (@handler_answers None None (fun _ => Rejected connection_refused) []
           (body_of_prompt (JStr (js "hi")))
           (error_json 500 "Internal server error" "INTERNAL_ERROR" None)
           [mkRequest (js "claude-3-haiku-20240307") (JNum (Dec 800 0))
              (JNum (Dec 3 (-1))) (JNum (Dec 9 (-1))) (JStr (js "hi")) None
              (js "2023-06-01") 30000]).
  reflexivity.
Defined.
